(** * Quadruped kit: gravity fusion, foot forces, stand-up and gait sequencing

    A shallow embedding of [kits/quad/src/robot/quadruped.cpp],
    [kits/quad/src/dynamicWalk.cpp] and [kits/quad/src/quadruped_control.cpp].

    The C++ code computes on [double]. Every definition below is written once,
    over an interface [Scalar] of the operations the code uses, and is read at
    two instances:
    - [binary64], IEEE-754 doubles (the kernel's primitive floats), on which
      the definitions run;
    - [xreal], the real numbers extended with one NaN value, where rounding,
      overflow and infinities are left out and [M_PI] is the number pi. The
      algebraic laws of the code (sums of weights, normalisation) are proved
      there. *)

From Stdlib Require Import ZArith List Bool Lia.
From Stdlib Require Import Floats.
From Stdlib Require Import Reals Lra.
Import ListNotations.

Set Implicit Arguments.

(** ** Scalars *)

Declare Scope dbl_scope.
Delimit Scope dbl_scope with dbl.

Class Scalar (D : Type) : Type := {
  of_Z : Z -> D;            (* conversion of an integer, as [double(n)] *)
  add : D -> D -> D;
  sub : D -> D -> D;
  mul : D -> D -> D;
  div : D -> D -> D;
  opp : D -> D;
  sqrt : D -> D;            (* [std::sqrt] *)
  ltb : D -> D -> bool;     (* [x < y], false when an operand is NaN *)
  leb : D -> D -> bool;     (* [x <= y], false when an operand is NaN *)
  quiet_NaN : D;            (* [std::numeric_limits<double>::quiet_NaN()] *)
  isnan : D -> bool         (* [std::isnan] *)
}.

Infix "+" := add : dbl_scope.
Infix "-" := sub : dbl_scope.
Infix "*" := mul : dbl_scope.
Infix "/" := div : dbl_scope.
Notation "- x" := (opp x) : dbl_scope.
Infix "<?" := ltb : dbl_scope.
Infix "<=?" := leb : dbl_scope.
Notation "x >? y" := (ltb y x) (at level 70, no associativity) : dbl_scope.
Notation "x >=? y" := (leb y x) (at level 70, no associativity) : dbl_scope.

(** A decimal literal [m / 10^k] of the source: the quotient of two integers
    that [double] holds exactly is rounded once, as the literal is. *)
Definition lit {D} `{Scalar D} (m : Z) (k : nat) : D :=
  match k with
  | O => of_Z m
  | _ => div (of_Z m) (of_Z (10 ^ Z.of_nat k))
  end.
Arguments lit : simpl never.

(** *** IEEE-754 binary64 *)

Definition binary64 : Type := PrimFloat.float.

Definition b64_of_Z (z : Z) : binary64 :=
  match z with
  | Zneg p => PrimFloat.opp (PrimFloat.of_uint63 (Uint63.of_Z (Zpos p)))
  | _ => PrimFloat.of_uint63 (Uint63.of_Z z)
  end.

#[export] Instance binary64_scalar : Scalar binary64 := {
  of_Z := b64_of_Z;
  add := PrimFloat.add;
  sub := PrimFloat.sub;
  mul := PrimFloat.mul;
  div := PrimFloat.div;
  opp := PrimFloat.opp;
  sqrt := PrimFloat.sqrt;
  ltb := PrimFloat.ltb;
  leb := PrimFloat.leb;
  quiet_NaN := PrimFloat.nan;
  isnan := PrimFloat.is_nan
}.

(** *** Reals with a NaN

    Where a double would be an infinity or a NaN (a division by 0, the
    square root of a negative number) the ideal scalar is NaN. *)

Inductive xreal : Type :=
| XNaN : xreal
| XR (r : R) : xreal.

Definition xlift2 (f : R -> R -> R) (x y : xreal) : xreal :=
  match x, y with
  | XR a, XR b => XR (f a b)
  | _, _ => XNaN
  end.

Definition xdiv (x y : xreal) : xreal :=
  match x, y with
  | XR a, XR b => if Req_dec_T b 0 then XNaN else XR (a / b)%R
  | _, _ => XNaN
  end.

Definition xsqrt (x : xreal) : xreal :=
  match x with
  | XR a => if Rlt_dec a 0 then XNaN else XR (R_sqrt.sqrt a)
  | XNaN => XNaN
  end.

Definition xopp (x : xreal) : xreal :=
  match x with
  | XR a => XR (- a)%R
  | XNaN => XNaN
  end.

Definition xltb (x y : xreal) : bool :=
  match x, y with
  | XR a, XR b => if Rlt_dec a b then true else false
  | _, _ => false
  end.

Definition xleb (x y : xreal) : bool :=
  match x, y with
  | XR a, XR b => if Rle_dec a b then true else false
  | _, _ => false
  end.

Definition xisnan (x : xreal) : bool :=
  match x with
  | XNaN => true
  | XR _ => false
  end.

#[export] Instance xreal_scalar : Scalar xreal := {
  of_Z := fun z => XR (IZR z);
  add := xlift2 Rplus;
  sub := xlift2 Rminus;
  mul := xlift2 Rmult;
  div := xdiv;
  opp := xopp;
  sqrt := xsqrt;
  ltb := xltb;
  leb := xleb;
  quiet_NaN := XNaN;
  isnan := xisnan
}.

(** [std::sin] and [M_PI], which only the ideal model has. *)
Class Trig (D : Type) : Type := {
  sin : D -> D;
  M_PI : D
}.

#[export] Instance xreal_trig : Trig xreal := {
  sin := fun x => match x with XR a => XR (Rtrigo_def.sin a) | XNaN => XNaN end;
  M_PI := XR PI
}.

(** ** Eigen vectors and matrices

    [Vector3d] also stands for the [VectorXd] of a leg's three joint values.
    A product is the sum of its terms from left to right. *)

Section LinearAlgebra.
Context {D : Type} {SD : Scalar D}.
Local Open Scope dbl_scope.

Record Vector3d : Type := V3 { vx : D; vy : D; vz : D }.
Record Vector4d : Type := V4 { wx : D; wy : D; wz : D; ww : D }.
Record Matrix3d : Type := M3 { m3r0 : Vector3d; m3r1 : Vector3d; m3r2 : Vector3d }.
Record Matrix4d : Type :=
  M4 { m4r0 : Vector4d; m4r1 : Vector4d; m4r2 : Vector4d; m4r3 : Vector4d }.
Record Quaterniond : Type := Quat { qw : D; qx : D; qy : D; qz : D }.

Definition vzero : Vector3d := V3 (of_Z 0) (of_Z 0) (of_Z 0).
Definition nan_column : Vector3d := V3 quiet_NaN quiet_NaN quiet_NaN.

Definition vadd (a b : Vector3d) : Vector3d :=
  V3 (vx a + vx b) (vy a + vy b) (vz a + vz b).
Definition vsub (a b : Vector3d) : Vector3d :=
  V3 (vx a - vx b) (vy a - vy b) (vz a - vz b).
Definition vopp (a : Vector3d) : Vector3d := V3 (- vx a) (- vy a) (- vz a).
(** [s * v] and [v * s] *)
Definition smul (s : D) (a : Vector3d) : Vector3d :=
  V3 (s * vx a) (s * vy a) (s * vz a).
Definition vmuls (a : Vector3d) (s : D) : Vector3d :=
  V3 (vx a * s) (vy a * s) (vz a * s).
Definition vdivs (a : Vector3d) (s : D) : Vector3d :=
  V3 (vx a / s) (vy a / s) (vz a / s).
Definition dot (a b : Vector3d) : D := vx a * vx b + vy a * vy b + vz a * vz b.
Definition squaredNorm (a : Vector3d) : D := dot a a.
Definition norm (a : Vector3d) : D := sqrt (squaredNorm a).

(** Modelled from the spec: Eigen's [normalize()], which is not among the
    sources. The spec keeps the fused vector "unit-norm or exactly zero", which
    is Eigen's in-place normalisation: the vector is divided by its norm when
    its squared norm is positive and left as it is otherwise. *)
Definition normalize (a : Vector3d) : Vector3d :=
  let z := squaredNorm a in
  if z >? of_Z 0 then vdivs a (sqrt z) else a.

Definition has_nan (a : Vector3d) : bool :=
  isnan (vx a) || isnan (vy a) || isnan (vz a).

Definition col3 (m : Matrix3d) (f : Vector3d -> D) : Vector3d :=
  V3 (f (m3r0 m)) (f (m3r1 m)) (f (m3r2 m)).
Definition transpose (m : Matrix3d) : Matrix3d :=
  M3 (col3 m vx) (col3 m vy) (col3 m vz).
Definition mat_vec (m : Matrix3d) (v : Vector3d) : Vector3d :=
  V3 (dot (m3r0 m) v) (dot (m3r1 m) v) (dot (m3r2 m) v).
Definition mat_mat (a b : Matrix3d) : Matrix3d :=
  let bt := transpose b in
  M3 (mat_vec bt (m3r0 a)) (mat_vec bt (m3r1 a)) (mat_vec bt (m3r2 a)).

Definition dot4 (a b : Vector4d) : D :=
  wx a * wx b + wy a * wy b + wz a * wz b + ww a * ww b.
Definition mat4_vec4 (m : Matrix4d) (v : Vector4d) : Vector4d :=
  V4 (dot4 (m4r0 m) v) (dot4 (m4r1 m) v) (dot4 (m4r2 m) v) (dot4 (m4r3 m) v).
(** [topLeftCorner<3,1>()] of a 4-vector, [topLeftCorner<3,3>()] of a frame *)
Definition top3 (v : Vector4d) : Vector3d := V3 (wx v) (wy v) (wz v).
Definition topLeftCorner (m : Matrix4d) : Matrix3d :=
  M3 (top3 (m4r0 m)) (top3 (m4r1 m)) (top3 (m4r2 m)).

(** Eigen's [Quaterniond::toRotationMatrix()] (no normalisation of [q]). *)
Definition toRotationMatrix (q : Quaterniond) : Matrix3d :=
  let two := of_Z 2 in
  let one := of_Z 1 in
  let tx := two * qx q in
  let ty := two * qy q in
  let tz := two * qz q in
  let twx := tx * qw q in
  let twy := ty * qw q in
  let twz := tz * qw q in
  let txx := tx * qx q in
  let txy := ty * qx q in
  let txz := tz * qx q in
  let tyy := ty * qy q in
  let tyz := tz * qy q in
  let tzz := tz * qz q in
  M3 (V3 (one - (tyy + tzz)) (txy - twz) (txz + twy))
     (V3 (txy + twz) (one - (txx + tzz)) (tyz - twx))
     (V3 (txz - twy) (tyz + twx) (one - (txx + tyy))).

End LinearAlgebra.

Arguments Vector3d D : clear implicits.
Arguments Vector4d D : clear implicits.
Arguments Matrix3d D : clear implicits.
Arguments Matrix4d D : clear implicits.
Arguments Quaterniond D : clear implicits.

(** ** The robot: [hebi::Quadruped] *)

(** [x <- c ;; k] threads a step that is undefined when a trajectory vector is
    indexed past its end. *)
Notation "x <- c ;; k" :=
  (match c with Some x => k | None => None end)
  (at level 61, c at next level, right associativity).

Section Robot.
Context {D : Type} {SD : Scalar D}.
Local Open Scope dbl_scope.

Definition num_legs_ : nat := 6.
Definition num_joints_per_leg_ : nat := 3.

(** A trajectory is what [Trajectory::createUnconstrainedQp] was given: the
    waypoint times and the columns of the position, velocity and acceleration
    matrices. *)
Record Trajectory : Type := createUnconstrainedQp {
  times : list D;
  positions : list (Vector3d D);
  velocities : list (Vector3d D);
  accelerations : list (Vector3d D)
}.

(** [Trajectory::getState], the interpolation of the HEBI library: angles,
    velocities and accelerations at a time. *)
Variable getState : Trajectory -> D -> Vector3d D * Vector3d D * Vector3d D.

(** [QuadLeg] is not among the sources: a leg carries its base frame, its
    latest joint angles, and its kinematics as functions. *)
Record QuadLeg : Type := {
  getBaseFrame : Matrix4d D;
  getJointAngle : Vector3d D;
  computeIK : Vector3d D -> Vector3d D;
  getFK_EndEffector : Vector3d D -> Vector3d D;
  computeCompensateTorques :
    Vector3d D -> Vector3d D -> Vector3d D -> Vector3d D -> Vector3d D
}.

Definition setJointAngles (pos_vec : Vector3d D) (l : QuadLeg) : QuadLeg :=
  {| getBaseFrame := getBaseFrame l;
     getJointAngle := pos_vec;
     computeIK := computeIK l;
     getFK_EndEffector := getFK_EndEffector l;
     computeCompensateTorques := computeCompensateTorques l |}.

(** One module's feedback: a field that was not reported is [None]. *)
Record Feedback : Type := {
  imu_orientation : option (Quaterniond D);
  actuator_position : option D
}.
Definition GroupFeedback : Type := nat -> Feedback.

(** [orientation().get()] of the HEBI API: NaN in every component when the
    field is absent. *)
Definition orientation_get (o : option (Quaterniond D)) : Quaterniond D :=
  match o with
  | Some q => q
  | None => Quat quiet_NaN quiet_NaN quiet_NaN quiet_NaN
  end.

(** One module's command: a component that is not set is not sent. *)
Record Command : Type := {
  position : option D;
  velocity : option D;
  effort : option D
}.
Definition GroupCommand : Type := nat -> Command.

Definition set_position (x : D) (c : Command) : Command :=
  {| position := Some x; velocity := velocity c; effort := effort c |}.
Definition set_velocity (x : D) (c : Command) : Command :=
  {| position := position c; velocity := Some x; effort := effort c |}.
Definition set_effort (x : D) (c : Command) : Command :=
  {| position := position c; velocity := velocity c; effort := Some x |}.

(** [cmd_[k]...set(x)] *)
Definition cmd_at (k : nat) (f : Command -> Command) (c : GroupCommand)
  : GroupCommand :=
  fun j => if Nat.eqb j k then f (c j) else c j.

(** The three joints of a leg, joint 0 first. *)
Definition cmd_leg (set : D -> Command -> Command) (leg_offset : nat)
  (v : Vector3d D) (c : GroupCommand) : GroupCommand :=
  cmd_at (leg_offset + 2) (set (vz v))
    (cmd_at (leg_offset + 1) (set (vy v))
      (cmd_at (leg_offset + 0) (set (vx v)) c)).

(** The six legs are built by the constructor and indexed 0..5; the group
    holds [num_legs_ * num_joints_per_leg_] modules. [sent] lists the command
    frames handed to [group_->sendCommand], oldest first. *)
Record Quadruped : Type := {
  legs_ : nat -> QuadLeg;
  gravity_direction_ : Vector3d D;
  weight_ : D;
  cmd_ : GroupCommand;
  startup_trajectories : list Trajectory;
  swing_trajectories : list Trajectory;
  stance_trajectories : list Trajectory;
  is_exec_traj : bool;
  sent : list GroupCommand
}.

Definition with_legs (f : nat -> QuadLeg) (q : Quadruped) : Quadruped :=
  {| legs_ := f; gravity_direction_ := gravity_direction_ q;
     weight_ := weight_ q; cmd_ := cmd_ q;
     startup_trajectories := startup_trajectories q;
     swing_trajectories := swing_trajectories q;
     stance_trajectories := stance_trajectories q;
     is_exec_traj := is_exec_traj q; sent := sent q |}.
Definition with_gravity (g : Vector3d D) (q : Quadruped) : Quadruped :=
  {| legs_ := legs_ q; gravity_direction_ := g;
     weight_ := weight_ q; cmd_ := cmd_ q;
     startup_trajectories := startup_trajectories q;
     swing_trajectories := swing_trajectories q;
     stance_trajectories := stance_trajectories q;
     is_exec_traj := is_exec_traj q; sent := sent q |}.
Definition with_cmd (c : GroupCommand) (q : Quadruped) : Quadruped :=
  {| legs_ := legs_ q; gravity_direction_ := gravity_direction_ q;
     weight_ := weight_ q; cmd_ := c;
     startup_trajectories := startup_trajectories q;
     swing_trajectories := swing_trajectories q;
     stance_trajectories := stance_trajectories q;
     is_exec_traj := is_exec_traj q; sent := sent q |}.
Definition with_startup (l : list Trajectory) (q : Quadruped) : Quadruped :=
  {| legs_ := legs_ q; gravity_direction_ := gravity_direction_ q;
     weight_ := weight_ q; cmd_ := cmd_ q;
     startup_trajectories := l;
     swing_trajectories := swing_trajectories q;
     stance_trajectories := stance_trajectories q;
     is_exec_traj := is_exec_traj q; sent := sent q |}.
Definition with_swing (l : list Trajectory) (q : Quadruped) : Quadruped :=
  {| legs_ := legs_ q; gravity_direction_ := gravity_direction_ q;
     weight_ := weight_ q; cmd_ := cmd_ q;
     startup_trajectories := startup_trajectories q;
     swing_trajectories := l;
     stance_trajectories := stance_trajectories q;
     is_exec_traj := is_exec_traj q; sent := sent q |}.
Definition with_stance (l : list Trajectory) (q : Quadruped) : Quadruped :=
  {| legs_ := legs_ q; gravity_direction_ := gravity_direction_ q;
     weight_ := weight_ q; cmd_ := cmd_ q;
     startup_trajectories := startup_trajectories q;
     swing_trajectories := swing_trajectories q;
     stance_trajectories := l;
     is_exec_traj := is_exec_traj q; sent := sent q |}.
Definition with_exec_traj (b : bool) (q : Quadruped) : Quadruped :=
  {| legs_ := legs_ q; gravity_direction_ := gravity_direction_ q;
     weight_ := weight_ q; cmd_ := cmd_ q;
     startup_trajectories := startup_trajectories q;
     swing_trajectories := swing_trajectories q;
     stance_trajectories := stance_trajectories q;
     is_exec_traj := b; sent := sent q |}.

(** [Quadruped::sendCommand] *)
Definition sendCommand (q : Quadruped) : Quadruped :=
  {| legs_ := legs_ q; gravity_direction_ := gravity_direction_ q;
     weight_ := weight_ q; cmd_ := cmd_ q;
     startup_trajectories := startup_trajectories q;
     swing_trajectories := swing_trajectories q;
     stance_trajectories := stance_trajectories q;
     is_exec_traj := is_exec_traj q; sent := sent q ++ [cmd_ q] |}.

(** [Quadruped::getGravityDirection], [Quadruped::getLegJointAngles] *)
Definition getGravityDirection (q : Quadruped) : Vector3d D :=
  gravity_direction_ q.
Definition getLegJointAngles (q : Quadruped) (index : nat) : Vector3d D :=
  getJointAngle (legs_ q index).

(** *** The feedback handler installed by the constructor *)

Definition down : Vector3d D := V3 (of_Z 0) (of_Z 0) (of_Z (-1)).

(** [my_grav] of leg [i]: the local "down" rotated into the body frame. *)
Definition my_grav (q : Quadruped) (fbk : GroupFeedback) (i : nat) : Vector3d D :=
  let mod_orientation :=
    orientation_get (imu_orientation (fbk (i * num_joints_per_leg_)%nat)) in
  let mod_orientation_mat := toRotationMatrix mod_orientation in
  let trans := getBaseFrame (legs_ q i) in
  mat_vec (mat_mat (topLeftCorner trans) (transpose mod_orientation_mat)) down.

(** FBK 1, the loop over the legs: [avg_grav] after leg [i]. *)
Definition add_leg_gravity (q : Quadruped) (fbk : GroupFeedback)
  (avg_grav : Vector3d D) (i : nat) : Vector3d D :=
  let g := my_grav q fbk i in
  if negb (isnan (vx g)) && negb (isnan (vy g)) && negb (isnan (vz g))
  then vadd avg_grav g
  else avg_grav.

Definition avg_grav (q : Quadruped) (fbk : GroupFeedback) : Vector3d D :=
  normalize (fold_left (add_leg_gravity q fbk) (seq 0 num_legs_) vzero).

(** FBK 2: the joint positions of leg [i], NaN where a position is absent. *)
Definition fbk_pos (fbk : GroupFeedback) (i j : nat) : D :=
  match actuator_position (fbk (i * num_joints_per_leg_ + j)%nat) with
  | Some pos => pos
  | None => quiet_NaN
  end.
Definition pos_vec (fbk : GroupFeedback) (i : nat) : Vector3d D :=
  V3 (fbk_pos fbk i 0) (fbk_pos fbk i 1) (fbk_pos fbk i 2).

(** The handler. The update of the complementary filter, between the two
    parts, reads the feedback times and writes [imu_filter] and nothing else;
    it is off until [updateIMUFilter] is set and is left out, and the
    feedback times with it. *)
Definition feedbackHandler (fbk : GroupFeedback) (q : Quadruped) : Quadruped :=
  let q1 := with_gravity (avg_grav q fbk) q in
  with_legs
    (fun i => if Nat.ltb i num_legs_
              then setJointAngles (pos_vec fbk i) (legs_ q1 i)
              else legs_ q1 i)
    q1.

(** *** Stance points *)

(** [(base_frame * tmp4).topLeftCorner<3,1>()] *)
Definition in_base_frame (l : QuadLeg) (tmp4 : Vector4d D) : Vector3d D :=
  top3 (mat4_vec4 (getBaseFrame l) tmp4).

(** [tmp4(0.45, 0, -0.28, 0)], [tmp4(0.55, 0, 0.05, 0)], [tmp4(0.35, 0, 0, 0)] *)
Definition home_stance_xyz (l : QuadLeg) : Vector3d D :=
  in_base_frame l (V4 (lit 45 2) (of_Z 0) (- lit 28 2) (of_Z 0)).
Definition spread_stance_xyz (l : QuadLeg) : Vector3d D :=
  in_base_frame l (V4 (lit 55 2) (of_Z 0) (lit 5 2) (of_Z 0)).
Definition hold_stance_xyz (l : QuadLeg) : Vector3d D :=
  vadd (in_base_frame l (V4 (lit 35 2) (of_Z 0) (of_Z 0) (of_Z 0)))
       (V3 (lit 7 2) (of_Z 0) (of_Z 0)).

(** *** [Quadruped::planStandUpTraj] *)

Definition standup_trajectory (q : Quadruped) (duration_time : D) (i : nat)
  : Trajectory :=
  let leg_start := getLegJointAngles q i in
  let leg_end := computeIK (legs_ q i) (home_stance_xyz (legs_ q i)) in
  let leg_mid := V3 (vx leg_end) (vy leg_end - lit 3 1) (vz leg_end - lit 15 2) in
  let step_first := Nat.eqb i 0 || Nat.eqb i 3 || Nat.eqb i 4 in
  createUnconstrainedQp
    [ of_Z 0;
      of_Z 0 + duration_time * lit 25 2;
      of_Z 0 + duration_time * lit 5 1;
      of_Z 0 + duration_time * lit 75 2;
      of_Z 0 + duration_time ]
    [ leg_start;
      if step_first then leg_mid else leg_start;
      if step_first then leg_end else leg_start;
      if step_first then leg_end else leg_mid;
      leg_end ]
    [ vzero; nan_column; vzero; nan_column; vzero ]
    [ vzero; nan_column; vzero; nan_column; vzero ].

(** The body of the [for] loop for leg [i]: the trajectory of the leg is
    pushed to the back of [startup_trajectories]. *)
Definition planStandUpTraj_leg (duration_time : D) (q : Quadruped) (i : nat)
  : Quadruped :=
  with_startup
    (startup_trajectories q ++ [standup_trajectory q duration_time i]) q.

(** The [for] loop, which is the whole body of the function. *)
Definition planStandUpTraj_loop (duration_time : D) (q : Quadruped)
  : Quadruped :=
  fold_left (planStandUpTraj_leg duration_time) (seq 0 num_legs_) q.

(** What a call of a member function declared [bool] comes to.
    [returned b q]: a [return] statement gave [b], with the object as [q].
    [no_return q]: the body ran to its closing brace, with the object as [q],
    and met no [return]. To flow off the end of a function that is not [void]
    is undefined behaviour: the call has no value, and the language says
    nothing of the program from there on. *)
Inductive Returned : Type :=
| returned (b : bool) (q : Quadruped)
| no_return (q : Quadruped).

(** The function is declared [bool] and its body is the loop and nothing
    else: every call flows off the end. *)
Definition planStandUpTraj (duration_time : D) (q : Quadruped) : Returned :=
  no_return (planStandUpTraj_loop duration_time q).

(** *** [Quadruped::setCommand] *)

Definition setCommand (index : nat) (angles vels torques : option (Vector3d D))
  (q : Quadruped) : Quadruped :=
  let leg_offset := (index * num_joints_per_leg_)%nat in
  let c0 := cmd_ q in
  let c1 := match angles with
            | Some a => cmd_leg set_position leg_offset a c0
            | None => c0
            end in
  let c2 := match vels with
            | Some v => cmd_leg set_velocity leg_offset v c1
            | None => c1
            end in
  let c3 := match torques with
            | Some t => cmd_leg set_effort leg_offset t c2
            | None => c2
            end in
  with_cmd c3 q.

(** *** [Quadruped::computeFootForces] *)

(** [VectorXd::sum()]: the first coefficient, then the others added in turn. *)
Definition sum (l : list D) : D :=
  match l with
  | [] => of_Z 0
  | a :: r => fold_left add r a
  end.

(** [factors(i)] of the first loop: the distance of the stance point from the
    line along [grav]. *)
Definition leverage (grav : Vector3d D) (l : QuadLeg) : D :=
  let stance := home_stance_xyz l in
  let dot_prod := dot grav stance in
  norm (vsub (vmuls grav dot_prod) stance).

Section FootForces.
Context {TD : Trig D}.

Definition blend_factors : list D := map (fun _ => of_Z 1) (seq 0 6).

(** [factors] when the last loop starts. *)
Definition foot_factors (q : Quadruped) : list D :=
  let grav := vopp (gravity_direction_ q) in
  let factors0 := map (fun i => leverage grav (legs_ q i)) (seq 0 6) in
  let fact_sum0 := sum factors0 in
  let factors1 := map (fun f => fact_sum0 / f) factors0 in
  let fact_sum1 := sum factors1 in
  let factors2 := map (fun f => f / fact_sum1) factors1 in
  map (fun fb => fst fb * (of_Z 1 + lit 33 2 * sin (M_PI * snd fb)))
      (combine factors2 blend_factors).

(** The columns of [foot_forces], leg 0 first. *)
Definition computeFootForces (q : Quadruped) : list (Vector3d D) :=
  let grav := vopp (gravity_direction_ q) in
  map (fun f => smul (f * weight_ q) grav) (foot_factors q).

(** *** [Quadruped::execStandUpTraj] *)

(** [9.8f], the single-precision literal: 10276045 / 2^20. *)
Definition g_9_8f : D := of_Z 10276045 / of_Z 1048576.

Definition ramp_up_scale (curr_time : D) : D :=
  let a := of_Z 1 in
  let b := curr_time + lit 1 3 / of_Z 2 in
  (* std::min(a, b) *)
  if b <? a then b else a.

(** The foot force of leg [i] after [foot_forces *= ramp_up_scale]. *)
Definition ramped_foot_force (q : Quadruped) (curr_time : D) (i : nat)
  : Vector3d D :=
  vmuls (nth i (computeFootForces q) vzero) (ramp_up_scale curr_time).

Definition execStandUpTraj_leg (curr_time : D) (q : Quadruped) (i : nat)
  : option Quadruped :=
  traj <- nth_error (startup_trajectories q) i ;;
  let '(angles, vels, _) := getState traj curr_time in
  let gravity_vec := vmuls (getGravityDirection q) g_9_8f in
  let foot_force := ramped_foot_force q curr_time i in
  let torques :=
    computeCompensateTorques (legs_ q i) angles vels gravity_vec foot_force in
  Some (setCommand i (Some angles) (Some vels) (Some torques) q).

(** The [for] loop: [None] when [startup_trajectories] is indexed past its
    end, which it is when it has fewer than six entries. *)
Definition execStandUpTraj_loop (curr_time : D) (q : Quadruped)
  : option Quadruped :=
  fold_left
    (fun oq i => q <- oq ;; execStandUpTraj_leg curr_time q i)
    (seq 0 num_legs_) (Some q).

(** The function is declared [bool]; its body is the loop and
    [sendCommand()], and no [return]: a call that gets through the loop
    flows off the end. *)
Definition execStandUpTraj (curr_time : D) (q : Quadruped) : option Returned :=
  q' <- execStandUpTraj_loop curr_time q ;;
  Some (no_return (sendCommand q')).

End FootForces.

(** *** [Quadruped::spreadAllLegs] *)

(** The first loop: the one variable [goal] receives the IK solution of each
    leg in turn and is written to that leg's position commands. It is declared
    empty; [goal0] stands for it and is overwritten before any use. *)
Definition spread_command (q : Quadruped) (st : GroupCommand * Vector3d D)
  (i : nat) : GroupCommand * Vector3d D :=
  let goal := computeIK (legs_ q i) (spread_stance_xyz (legs_ q i)) in
  let leg_offset := (i * num_joints_per_leg_)%nat in
  (cmd_leg set_position leg_offset goal (fst st), goal).

(** The second loop: one test per leg against the [goal] left by the first. *)
Definition spread_check (q : Quadruped) (goal : Vector3d D) (isReaching : bool)
  (i : nat) : bool :=
  let curr_angle := getJointAngle (legs_ q i) in
  let differece := vsub goal curr_angle in
  if norm differece >? lit 5 1 then false else isReaching.

Definition spreadAllLegs (q : Quadruped) : Quadruped * bool :=
  let st := fold_left (spread_command q) (seq 0 num_legs_) (cmd_ q, vzero) in
  let goal := snd st in
  let isReaching := fold_left (spread_check q goal) (seq 0 num_legs_) true in
  (sendCommand (with_cmd (fst st) (with_exec_traj true q)), isReaching).

(** *** [Quadruped::runTest] and [Quadruped::prepareTrajectories] *)

Inductive SwingMode : Type :=
| swing_mode_virtualLeg1
| swing_mode_virtualLeg2.

(** [swing_vleg] and [stance_vleg], set by the same test in both functions. *)
Definition swing_vleg (mode : SwingMode) : list nat :=
  match mode with
  | swing_mode_virtualLeg1 => [0; 5]
  | _ => [1; 4]
  end%nat.
Definition stance_vleg (mode : SwingMode) : list nat :=
  match mode with
  | swing_mode_virtualLeg1 => [1; 4]
  | _ => [0; 5]
  end%nat.

(** The manipulating legs 2 and 3 are held up: positions only. *)
Definition hold_leg (q : Quadruped) (c : GroupCommand) (i : nat) : GroupCommand :=
  let goal := computeIK (legs_ q i) (hold_stance_xyz (legs_ q i)) in
  cmd_leg set_position (i * num_joints_per_leg_) goal c.

(** One leg of a virtual leg: positions from its trajectory, efforts from the
    compensating torques for [foot_force]. *)
Definition follow_leg (q : Quadruped) (trajs : list Trajectory)
  (curr_time : D) (foot_force : Vector3d D) (oc : option GroupCommand)
  (il : nat * nat) : option GroupCommand :=
  c <- oc ;;
  traj <- nth_error trajs (fst il) ;;
  let '(traj_angles, traj_vels, _) := getState traj curr_time in
  let gravity_vec := vmuls (getGravityDirection q) g_9_8f in
  let leg_offset := (snd il * num_joints_per_leg_)%nat in
  let torques :=
    computeCompensateTorques (legs_ q (snd il)) traj_angles traj_vels
      gravity_vec foot_force in
  Some (cmd_leg set_effort leg_offset torques
         (cmd_leg set_position leg_offset traj_angles c)).

(** [(-0.25*0 + 0.2) * -gravity_direction_ * weight_] and
    [0.0 * -gravity_direction_ * weight_] *)
Definition swing_foot_force (q : Quadruped) : Vector3d D :=
  vmuls (smul ((- lit 25 2) * of_Z 0 + lit 2 1) (vopp (gravity_direction_ q)))
        (weight_ q).
Definition stance_foot_force (q : Quadruped) : Vector3d D :=
  vmuls (smul (of_Z 0) (vopp (gravity_direction_ q))) (weight_ q).

Definition enumerate (l : list nat) : list (nat * nat) :=
  combine (seq 0 (length l)) l.

(** [None] when a trajectory of the gait is missing. [total_time] only enters
    values the function never uses. *)
Definition runTest (mode : SwingMode) (curr_time total_time : D)
  (q : Quadruped) : option Quadruped :=
  let c0 := fold_left (hold_leg q) (seq 2 2) (cmd_ q) in
  c1 <- fold_left
          (follow_leg q (swing_trajectories q) curr_time (swing_foot_force q))
          (enumerate (swing_vleg mode)) (Some c0) ;;
  c2 <- fold_left
          (follow_leg q (stance_trajectories q) curr_time (stance_foot_force q))
          (enumerate (stance_vleg mode)) (Some c1) ;;
  Some (sendCommand (with_cmd c2 q)).

Definition three_waypoints (leg_swing_time : D)
  (start_leg_angles mid_leg_angles end_leg_angles : Vector3d D) : Trajectory :=
  let local_start := of_Z 0 in
  let total := leg_swing_time in
  createUnconstrainedQp
    [ local_start; local_start + total * lit 5 1; local_start + total ]
    [ start_leg_angles; mid_leg_angles; end_leg_angles ]
    [ vzero; nan_column; vzero ]
    [ vzero; nan_column; vzero ].

Definition swing_trajectory (q : Quadruped) (leg_swing_time : D) (leg : nat)
  : Trajectory :=
  let l := legs_ q leg in
  let start_leg_angles := computeIK l (home_stance_xyz l) in
  let start_leg_ee_xyz := getFK_EndEffector l start_leg_angles in
  let mid_leg_ee_xyz :=
    vadd start_leg_ee_xyz (V3 (lit 5 2) (of_Z 0) (lit 8 2)) in
  let end_leg_ee_xyz :=
    vadd start_leg_ee_xyz (V3 (lit 10 2) (of_Z 0) (of_Z 0)) in
  three_waypoints leg_swing_time start_leg_angles
    (computeIK l mid_leg_ee_xyz) (computeIK l end_leg_ee_xyz).

Definition stance_trajectory (q : Quadruped) (leg_swing_time : D) (leg : nat)
  : Trajectory :=
  let l := legs_ q leg in
  let home := home_stance_xyz l in
  let start_leg_angles := getJointAngle l in
  let start_leg_ee_xyz := getFK_EndEffector l start_leg_angles in
  let mid_leg_ee_xyz :=
    vadd (vadd (smul (lit 5 1) start_leg_ee_xyz) (smul (lit 5 1) home))
         (V3 (of_Z 0) (of_Z 0) (- lit 1 2)) in
  let end_leg_ee_xyz := home in
  three_waypoints leg_swing_time start_leg_angles
    (computeIK l mid_leg_ee_xyz) (computeIK l end_leg_ee_xyz).

Definition prepareTrajectories (mode : SwingMode) (leg_swing_time : D)
  (q : Quadruped) : Quadruped :=
  with_stance (map (stance_trajectory q leg_swing_time) (stance_vleg mode))
    (with_swing (map (swing_trajectory q leg_swing_time) (swing_vleg mode)) q).

End Robot.

Arguments Trajectory D : clear implicits.
Arguments QuadLeg D : clear implicits.
Arguments Feedback D : clear implicits.
Arguments GroupFeedback D : clear implicits.
Arguments Command D : clear implicits.
Arguments GroupCommand D : clear implicits.
Arguments Quadruped D : clear implicits.
Arguments Returned D : clear implicits.

(** ** The control loops *)

(** [steady_clock] counts nanoseconds. A pass of a loop reads the clock once
    for [state_curr_time] and once more when it records a new
    [state_enter_time]; both readings are the environment's. *)
Definition time_point : Type := Z.
Record Clock : Type := { now_curr : time_point; now_enter : time_point }.

(** [duration_cast<duration<double>>(a - b).count()] *)
Definition seconds {D} `{Scalar D} (a b : time_point) : D :=
  div (of_Z (a - b)) (of_Z 1000000000).

(** The calls a loop makes on the robot, in order. *)
Inductive Call (D : Type) : Type :=
| call_spreadAllLegs
| call_pushAllLegs (t s : D)
| call_startBodyRUpdate
| call_getTotalTime
| call_planDynamicGait
| call_followDynamicGait (t : D)
| call_freeze
| call_planStandUpTraj (d : D)
| call_execStandUpTraj (t : D).
Arguments call_spreadAllLegs {D}.
Arguments call_startBodyRUpdate {D}.
Arguments call_getTotalTime {D}.
Arguments call_planDynamicGait {D}.
Arguments call_freeze {D}.

Definition is_planDynamicGait {D} (c : Call D) : bool :=
  match c with call_planDynamicGait => true | _ => false end.
Definition is_freeze {D} (c : Call D) : bool :=
  match c with call_freeze => true | _ => false end.

(** A value of [ctrl_state_type] that no [case] but the last handles: the
    count sentinel 3, or any other value outside the three states. *)
Definition unmodelled (st : Z) : Prop :=
  st <> 0%Z /\ st <> 1%Z /\ st <> 2%Z.

(** *** dynamicWalk.cpp *)

Module DynamicWalk.

Definition QUAD_CTRL_STAND_UP1 : Z := 0.
Definition QUAD_CTRL_STAND_UP2 : Z := 1.
Definition QUAD_DYNAMIC_WALK : Z := 2.
Definition CTRL_STATES_COUNT : Z := 3.

(** The methods of [Quadruped] this program calls. The class it was written
    against is not among the sources, so the robot is a parameter. *)
Class Robot (D Q : Type) : Type := {
  spreadAllLegs : Q -> Q * bool;
  pushAllLegs : D -> D -> Q -> Q * bool;
  startBodyRUpdate : Q -> Q;
  getTotalTime : Q -> D;
  planDynamicGait : Q -> Q;
  followDynamicGait : D -> Q -> Q;
  freeze : Q -> Q
}.

Section Loop.
Context {D : Type} {SD : Scalar D} {Q : Type} {RQ : Robot D Q}.
Local Open Scope dbl_scope.

Definition startup_seconds : D := lit 19 1.

(** The variables of [main] that outlive a pass of the loop. *)
Record Loop : Type := {
  cur_ctrl_state : Z;
  state_enter_time : time_point;
  state_curr_time : time_point;
  state_run_time : D;
  isFinished : bool;
  first_time_enter : bool;
  quadruped : Q;
  calls : list (Call D)
}.

(** [main] before the loop, with the clock reading [t0]. [isFinished] is not
    initialised there. *)
Definition init (t0 : time_point) (isFinished0 : bool) (q : Q) : Loop :=
  {| cur_ctrl_state := QUAD_CTRL_STAND_UP1;
     state_enter_time := t0;
     state_curr_time := t0;
     state_run_time := of_Z 0;
     isFinished := isFinished0;
     first_time_enter := false;
     quadruped := q;
     calls := [] |}.

(** The [switch] of one pass. What a pass does before it, pacing the loop
    and polling the joystick, touches none of the variables above. *)
Definition control_switch (clk : Clock) (s : Loop) : Loop :=
  let curr := now_curr clk in
  let run := seconds curr (state_enter_time s) in
  if Z.eqb (cur_ctrl_state s) QUAD_CTRL_STAND_UP1 then
    let (q1, fin) := spreadAllLegs (quadruped s) in
    let log := calls s ++ [call_spreadAllLegs] in
    if run >=? startup_seconds then
      {| cur_ctrl_state := QUAD_CTRL_STAND_UP2;
         state_enter_time := now_enter clk;
         state_curr_time := curr; state_run_time := run;
         isFinished := fin; first_time_enter := first_time_enter s;
         quadruped := q1; calls := log |}
    else
      {| cur_ctrl_state := cur_ctrl_state s;
         state_enter_time := state_enter_time s;
         state_curr_time := curr; state_run_time := run;
         isFinished := fin; first_time_enter := first_time_enter s;
         quadruped := q1; calls := log |}
  else if Z.eqb (cur_ctrl_state s) QUAD_CTRL_STAND_UP2 then
    let (q1, fin) := pushAllLegs run startup_seconds (quadruped s) in
    let log := calls s ++ [call_pushAllLegs run startup_seconds] in
    if run >=? startup_seconds then
      {| cur_ctrl_state := QUAD_DYNAMIC_WALK;
         state_enter_time := now_enter clk;
         state_curr_time := curr; state_run_time := run;
         isFinished := fin; first_time_enter := true;
         quadruped := startBodyRUpdate q1;
         calls := log ++ [call_startBodyRUpdate] |}
    else
      {| cur_ctrl_state := cur_ctrl_state s;
         state_enter_time := state_enter_time s;
         state_curr_time := curr; state_run_time := run;
         isFinished := fin; first_time_enter := first_time_enter s;
         quadruped := q1; calls := log |}
  else if Z.eqb (cur_ctrl_state s) QUAD_DYNAMIC_WALK then
    let log := calls s ++ [call_getTotalTime] in
    if run >=? getTotalTime (quadruped s) then
      {| cur_ctrl_state := cur_ctrl_state s;
         state_enter_time := now_enter clk;
         state_curr_time := curr; state_run_time := run;
         isFinished := isFinished s; first_time_enter := true;
         quadruped := quadruped s; calls := log |}
    else
      let q1 := if first_time_enter s
                then planDynamicGait (quadruped s) else quadruped s in
      let log1 := if first_time_enter s
                  then log ++ [call_planDynamicGait] else log in
      {| cur_ctrl_state := cur_ctrl_state s;
         state_enter_time := state_enter_time s;
         state_curr_time := curr; state_run_time := run;
         isFinished := isFinished s; first_time_enter := false;
         quadruped := followDynamicGait run q1;
         calls := log1 ++ [call_followDynamicGait run] |}
  else
    (* case CTRL_STATES_COUNT: default: *)
    {| cur_ctrl_state := cur_ctrl_state s;
       state_enter_time := state_enter_time s;
       state_curr_time := state_curr_time s;
       state_run_time := state_run_time s;
       isFinished := isFinished s; first_time_enter := first_time_enter s;
       quadruped := freeze (quadruped s);
       calls := calls s ++ [call_freeze] |}.

(** The passes of the loop, one clock record each. *)
Definition run (ticks : list Clock) (s : Loop) : Loop :=
  fold_left (fun s clk => control_switch clk s) ticks s.

(** The time in state a pass with clock [clk] sees in state [s]. *)
Definition time_in_state (clk : Clock) (s : Loop) : D :=
  seconds (now_curr clk) (state_enter_time s).




End Loop.
Arguments Loop D Q : clear implicits.

End DynamicWalk.

(** *** quadruped_control.cpp *)

Module QuadrupedControl.

Definition HEXA_CTRL_STAND_UP_PLAN : Z := 0.
Definition HEXA_CTRL_STAND_UP : Z := 1.
Definition QUAD_CTRL_NORMAL : Z := 2.
Definition CTRL_STATES_COUNT : Z := 3.

Section Loop.
Context {D : Type} {SD : Scalar D} {TD : Trig D}.
Variable getState : Trajectory D -> D -> Vector3d D * Vector3d D * Vector3d D.
Local Open Scope dbl_scope.

Definition startup_seconds : D := lit 45 1.

(** The variables of the control thread that outlive a pass of its loop. *)
Record Loop : Type := {
  cur_ctrl_state : Z;
  state_enter_time : time_point;
  state_curr_time : time_point;
  state_run_time : D;
  quadruped : Quadruped D;
  calls : list (Call D)
}.

Definition init (t0 : time_point) (q : Quadruped D) : Loop :=
  {| cur_ctrl_state := HEXA_CTRL_STAND_UP_PLAN;
     state_enter_time := t0;
     state_curr_time := t0;
     state_run_time := of_Z 0;
     quadruped := q;
     calls := [] |}.

(** The [switch] of one pass. [None]: the pass is undefined, because a call
    it makes indexes a vector past its end or does not return. *)
Definition control_switch (clk : Clock) (s : Loop) : option Loop :=
  if Z.eqb (cur_ctrl_state s) HEXA_CTRL_STAND_UP_PLAN then
    match planStandUpTraj startup_seconds (quadruped s) with
    | returned _ q1 =>
        Some {| cur_ctrl_state := HEXA_CTRL_STAND_UP;
                state_enter_time := now_enter clk;
                state_curr_time := state_curr_time s;
                state_run_time := state_run_time s;
                quadruped := q1;
                calls := calls s ++ [call_planStandUpTraj startup_seconds] |}
    | no_return _ => None
    end
  else if Z.eqb (cur_ctrl_state s) HEXA_CTRL_STAND_UP then
    let curr := now_curr clk in
    let run := seconds curr (state_enter_time s) in
    r <- execStandUpTraj getState run (quadruped s) ;;
    match r with
    | returned _ q1 =>
        Some {| cur_ctrl_state :=
                  if run >=? startup_seconds
                  then QUAD_CTRL_NORMAL else cur_ctrl_state s;
                state_enter_time := state_enter_time s;
                state_curr_time := curr;
                state_run_time := run;
                quadruped := q1;
                calls := calls s ++ [call_execStandUpTraj run] |}
    | no_return _ => None
    end
  else if Z.eqb (cur_ctrl_state s) QUAD_CTRL_NORMAL then
    Some s
  else
    (* case CTRL_STATES_COUNT: default: break; *)
    Some s.

(** The passes of the loop, as long as they are defined. *)
Definition run (ticks : list Clock) (s : Loop) : option Loop :=
  fold_left (fun os clk => s <- os ;; control_switch clk s) ticks (Some s).

End Loop.
Arguments Loop D : clear implicits.

End QuadrupedControl.

(** ** More of [hebi::Quadruped] and of the two programs *)

Section RobotMore.
Context {D : Type} {SD : Scalar D}.
Local Open Scope dbl_scope.

(** *** [Quadruped::pushAllLegs] *)

(** The loop: the IK solution for the home stance point of each leg, written
    to that leg's position commands. *)
Definition push_command (q : Quadruped D) (st : GroupCommand D * Vector3d D)
  (i : nat) : GroupCommand D * Vector3d D :=
  let goal := computeIK (legs_ q i) (home_stance_xyz (legs_ q i)) in
  let leg_offset := (i * num_joints_per_leg_)%nat in
  (cmd_leg set_position leg_offset goal (fst st), goal).

(** [isReaching] is set to true and never written again. *)
Definition pushAllLegs (q : Quadruped D) : Quadruped D * bool :=
  let isReaching := true in
  let st := fold_left (push_command q) (seq 0 num_legs_) (cmd_ q, vzero) in
  (sendCommand (with_cmd (fst st) (with_exec_traj true q)), isReaching).

(** *** [Quadruped::prepareQuadMode] *)

(** The header of the first loop,
    [for (int i = 0; i < num_legs_; i == 1 ? i = i+3 : i++)]: the values [i]
    takes in the body. Every step raises [i], so [num_legs_] steps suffice. *)
Definition quad_mode_next (i : nat) : nat :=
  if Nat.eqb i 1 then (i + 3)%nat else S i.
Fixpoint loop_indices (fuel i : nat) : list nat :=
  match fuel with
  | O => []
  | S fuel' =>
      if Nat.ltb i num_legs_
      then i :: loop_indices fuel' (quad_mode_next i)
      else []
  end.
Definition locomote_legs : list nat := loop_indices num_legs_ 0.

(** [0.25 * -gravity_direction_ * weight_] *)
Definition quad_foot_force (q : Quadruped D) : Vector3d D :=
  vmuls (smul (lit 25 2) (vopp (gravity_direction_ q))) (weight_ q).

(** A locomotion leg: positions from the IK of the home stance point, efforts
    from the compensating torques at that pose, at rest, for a quarter of the
    weight. *)
Definition quad_mode_leg (q : Quadruped D) (c : GroupCommand D) (i : nat)
  : GroupCommand D :=
  let gravity_vec := vmuls (getGravityDirection q) g_9_8f in
  let goal := computeIK (legs_ q i) (home_stance_xyz (legs_ q i)) in
  let leg_offset := (i * num_joints_per_leg_)%nat in
  let vels := V3 (of_Z 0) (of_Z 0) (of_Z 0) in
  let foot_force := quad_foot_force q in
  let torques :=
    computeCompensateTorques (legs_ q i) goal vels gravity_vec foot_force in
  cmd_leg set_effort leg_offset torques
    (cmd_leg set_position leg_offset goal c).

Definition prepareQuadMode (q : Quadruped D) : Quadruped D * bool :=
  let isReaching := true in
  let c1 := fold_left (quad_mode_leg q) locomote_legs (cmd_ q) in
  let c2 := fold_left (hold_leg q) (seq 2 2) c1 in
  (sendCommand (with_cmd c2 (with_exec_traj true q)), isReaching).

End RobotMore.

(** *** The pacing of the two loops *)

(** [(int) x] of a [long]: the value modulo 2^32, in the signed range. *)
Definition to_int (x : Z) : Z :=
  ((x + 2147483648) mod 4294967296 - 2147483648)%Z.

Definition interval_ms : Z := 5.

(** [std::max(0, (int) duration_cast<milliseconds>(prev_time +
    milliseconds(interval_ms) - now_time).count())]: the cast to
    milliseconds drops the fraction, towards zero. *)
Definition need_to_wait (prev_time now_time : time_point) : Z :=
  Z.max 0
    (to_int (Z.quot (prev_time + interval_ms * 1000000 - now_time) 1000000)).

(** ** Concrete robots and clocks *)

(** A robot that only counts what it is asked: enough to run the loop of
    dynamicWalk.cpp. [cycle] is what [getTotalTime] returns. *)
Record Counting (D : Type) : Type := {
  cycle : D;
  planned : nat;
  followed : nat;
  frozen : nat
}.

#[export] Instance counting_robot {D : Type} : DynamicWalk.Robot D (Counting D) := {
  DynamicWalk.spreadAllLegs := fun q => (q, true);
  DynamicWalk.pushAllLegs := fun _ _ q => (q, true);
  DynamicWalk.startBodyRUpdate := fun q => q;
  DynamicWalk.getTotalTime := @cycle D;
  DynamicWalk.planDynamicGait := fun q =>
    {| cycle := cycle q; planned := S (planned q);
       followed := followed q; frozen := frozen q |};
  DynamicWalk.followDynamicGait := fun _ q =>
    {| cycle := cycle q; planned := planned q;
       followed := S (followed q); frozen := frozen q |};
  DynamicWalk.freeze := fun q =>
    {| cycle := cycle q; planned := planned q;
       followed := followed q; frozen := S (frozen q) |}
}.

(** A gait cycle of 0.8 s. *)
Definition counting0 {D} `{Scalar D} : Counting D :=
  {| cycle := lit 8 1; planned := 0; followed := 0; frozen := 0 |}.

(** [n] passes 5 ms apart, the first at [from] nanoseconds; a new
    [state_enter_time] is read 1 microsecond after [state_curr_time]. *)
Definition tick_at (t : Z) : Clock :=
  {| now_curr := t; now_enter := (t + 1000)%Z |}.
Definition every_5ms (from : Z) (n : nat) : list Clock :=
  map (fun k => tick_at (from + 5000000 * Z.of_nat k)%Z) (seq 0 n).

(** The loop of dynamicWalk.cpp with the count sentinel in its state
    variable. *)
Definition stuck_walk {D} `{Scalar D} : DynamicWalk.Loop D (Counting D) :=
  {| DynamicWalk.cur_ctrl_state := DynamicWalk.CTRL_STATES_COUNT;
     DynamicWalk.state_enter_time := 0%Z;
     DynamicWalk.state_curr_time := 0%Z;
     DynamicWalk.state_run_time := of_Z 0;
     DynamicWalk.isFinished := false;
     DynamicWalk.first_time_enter := false;
     DynamicWalk.quadruped := counting0;
     DynamicWalk.calls := [] |}.

(** A test bench for [Quadruped]: legs mounted at multiples of a right angle
    (so that every frame entry is an integer), 0.2 m from the centre, whose
    joint values are the foot coordinates and whose compensating torque is
    the foot force it is asked for. *)
Section Bench.
Context {D : Type} {SD : Scalar D}.

Definition frame_z (c s : Z) : Matrix4d D :=
  M4 (V4 (of_Z c) (of_Z (- s)) (of_Z 0) (mul (lit 2 1) (of_Z c)))
     (V4 (of_Z s) (of_Z c) (of_Z 0) (mul (lit 2 1) (of_Z s)))
     (V4 (of_Z 0) (of_Z 0) (of_Z 1) (of_Z 0))
     (V4 (of_Z 0) (of_Z 0) (of_Z 0) (of_Z 1)).

Definition bench_leg (frame : Matrix4d D) (angles : Vector3d D) : QuadLeg D :=
  {| getBaseFrame := frame;
     getJointAngle := angles;
     computeIK := fun xyz => xyz;
     getFK_EndEffector := fun a => a;
     computeCompensateTorques := fun _ _ _ foot_force => foot_force |}.

Definition bench_frame (i : nat) : Matrix4d D :=
  match i with
  | 0 | 1 => frame_z 1 0
  | 2 => frame_z 0 1
  | 3 => frame_z 0 (-1)
  | _ => frame_z (-1) 0
  end%nat.

Definition no_command : GroupCommand D :=
  fun _ => {| position := None; velocity := None; effort := None |}.

(** The bench with every joint at [angles], gravity along [-z], 21 kg. *)
Definition bench (angles : Vector3d D) : Quadruped D :=
  {| legs_ := fun i => bench_leg (bench_frame i) angles;
     gravity_direction_ := V3 (of_Z 0) (of_Z 0) (of_Z (-1));
     weight_ := of_Z 21;
     cmd_ := no_command;
     startup_trajectories := [];
     swing_trajectories := [];
     stance_trajectories := [];
     is_exec_traj := false;
     sent := [] |}.

(** A sampler that holds the first waypoint. *)
Definition hold_first (traj : Trajectory D) (t : D)
  : Vector3d D * Vector3d D * Vector3d D :=
  (nth 0 (positions traj) vzero, vzero, vzero).

(** Feedback in which the modules listed in [silent] report nothing and the
    others report the identity orientation and the position [pos]. *)
Definition fbk_bench (silent : list nat) (pos : D) : GroupFeedback D :=
  fun k =>
    if existsb (Nat.eqb k) silent
    then {| imu_orientation := None; actuator_position := None |}
    else {| imu_orientation := Some (Quat (of_Z 1) (of_Z 0) (of_Z 0) (of_Z 0));
            actuator_position := Some pos |}.

End Bench.

(** The loop of quadruped_control.cpp with the count sentinel in its state
    variable. *)
Definition stuck_control {D} `{Scalar D} : QuadrupedControl.Loop D :=
  {| QuadrupedControl.cur_ctrl_state := QuadrupedControl.CTRL_STATES_COUNT;
     QuadrupedControl.state_enter_time := 0%Z;
     QuadrupedControl.state_curr_time := 0%Z;
     QuadrupedControl.state_run_time := of_Z 0;
     QuadrupedControl.quadruped := bench vzero;
     QuadrupedControl.calls := [] |}.



(** The bench before any module has reported: every field of the feedback is
    absent, so every joint angle is NaN. *)
Definition all_silent {D} `{Scalar D} : GroupFeedback D :=
  fbk_bench (seq 0 18) (of_Z 0).
Definition bench_unreported {D} `{Scalar D} : Quadruped D :=
  feedbackHandler all_silent (bench vzero).

(** The goal [spreadAllLegs] compares every leg with: the IK solution of the
    last leg. *)
Definition last_goal {D} `{Scalar D} (q : Quadruped D) : Vector3d D :=
  computeIK (legs_ q 5) (spread_stance_xyz (legs_ q 5)).

(** The bench, at rest, as the loop of [planStandUpTraj(4.5)] leaves it. *)
Definition bench_planned {D} `{Scalar D} : Quadruped D :=
  planStandUpTraj_loop (lit 45 1) (bench vzero).

(** The position commands of the three joints of leg [i]. *)
Definition leg_positions {D} (c : GroupCommand D) (i : nat)
  : option D * option D * option D :=
  (position (c (3 * i)%nat), position (c (3 * i + 1)%nat),
   position (c (3 * i + 2)%nat)).
Definition commanded {D} (v : Vector3d D) : option D * option D * option D :=
  (Some (vx v), Some (vy v), Some (vz v)).

(** The bench with a gait of 0.4 s prepared for the swing mode [mode]. *)
Definition bench_gait {D} `{Scalar D} (mode : SwingMode) : Quadruped D :=
  prepareTrajectories mode (lit 4 1) (bench vzero).

(** [n] times the vector (a, b, c), and the number of legs of a list whose
    rotated estimate is free of NaN. *)
Definition multiple (a b c : R) (n : nat) : Vector3d xreal :=
  V3 (XR (INR n * a)) (XR (INR n * b)) (XR (INR n * c)).
Definition valid_legs {D} `{Scalar D} (q : Quadruped D) (fbk : GroupFeedback D)
  (legs : list nat) : nat :=
  length (filter (fun i => negb (has_nan (my_grav q fbk i))) legs).

(** Feedback in which the modules of legs 0, 1 and 3 do not report. *)
Definition three_silent {D} `{Scalar D} : GroupFeedback D :=
  fbk_bench [0; 1; 2; 3; 4; 5; 9; 10; 11]%nat (of_Z 0).

(** The bench tilted forward: the unit gravity direction (0.6, 0, -0.8). *)
Definition bench_tilted {D} `{Scalar D} : Quadruped D :=
  with_gravity (V3 (lit 6 1) (of_Z 0) (opp (lit 8 1))) (bench vzero).

(** The number an ideal scalar holds, 0 for NaN. *)
Definition real_of (x : xreal) : R :=
  match x with
  | XR r => r
  | XNaN => 0
  end.

(** [std::sin] and [M_PI] on doubles. [M_PI] is the double nearest pi. The
    sine is the C library's, which is not among the sources;
    [computeFootForces] calls it at [M_PI * blend_factors(i)] with
    [blend_factors(i) = 1] and nowhere else, and there the correctly rounded
    sine is 0x1.1a62633145c07p-53 (about 1.2246e-16). This instance has that
    value at that argument and NaN at any other. *)
Definition M_PI_double : binary64 := 0x1.921fb54442d18p+1%float.
Definition sin_at_M_PI (x : binary64) : binary64 :=
  if PrimFloat.eqb x M_PI_double then 0x1.1a62633145c07p-53%float
  else PrimFloat.nan.
#[export] Instance binary64_trig : Trig binary64 := {
  sin := sin_at_M_PI;
  M_PI := M_PI_double
}.

(** The bench as the feedback handler leaves it when no module reports an
    orientation: the gravity direction is the zero vector. *)
Definition bench_no_gravity {D} `{Scalar D} : Quadruped D :=
  with_gravity vzero (bench vzero).

(** A bench whose six legs are all mounted with the rotation of columns
    (0.6, 0.8, 0), (-0.64, 0.48, -0.6), (-0.48, 0.36, 0.8): with the identity
    orientation reported by every module, each leg's rotated estimate of
    gravity is (0.48, -0.36, -0.8), a vector of squared norm 1. *)
Definition canted_frame {D} `{Scalar D} : Matrix4d D :=
  M4 (V4 (lit 6 1) (opp (lit 64 2)) (opp (lit 48 2)) (of_Z 0))
     (V4 (lit 8 1) (lit 48 2) (lit 36 2) (of_Z 0))
     (V4 (of_Z 0) (opp (lit 6 1)) (lit 8 1) (of_Z 0))
     (V4 (of_Z 0) (of_Z 0) (of_Z 0) (of_Z 1)).
Definition bench_canted {D} `{Scalar D} : Quadruped D :=
  with_legs (fun _ => bench_leg canted_frame vzero) (bench vzero).
Definition all_reporting {D} `{Scalar D} : GroupFeedback D :=
  fbk_bench [] (of_Z 0).

(** ** Vocabulary of the further properties *)

(** Coefficient [j] of a vector of three. *)
Definition coeff {D} (v : Vector3d D) (j : nat) : D :=
  match j with
  | O => vx v
  | S O => vy v
  | _ => vz v
  end.

(** What a call of [setCommand] leaves in a component of a module's command:
    the new value, or the old one under a null pointer. *)
Definition assigned {D} (arg : option (Vector3d D)) (j : nat) (old : option D)
  : option D :=
  match arg with
  | Some v => Some (coeff v j)
  | None => old
  end.

(** A command with its three components set. *)
Definition fully_set {D} (c : Command D) : Prop :=
  position c <> None /\ velocity c <> None /\ effort c <> None.

Definition is_followDynamicGait {D} (c : Call D) : bool :=
  match c with call_followDynamicGait _ => true | _ => false end.
Definition is_startBodyRUpdate {D} (c : Call D) : bool :=
  match c with call_startBodyRUpdate => true | _ => false end.

(** The first gait call of a log is a [followDynamicGait]: the gait was
    followed before it was ever planned. *)
Fixpoint follows_unplanned {D} (log : list (Call D)) : bool :=
  match log with
  | [] => false
  | call_planDynamicGait :: _ => false
  | call_followDynamicGait _ :: _ => true
  | _ :: rest => follows_unplanned rest
  end.

Definition count {A} (f : A -> bool) (l : list A) : nat :=
  length (filter f l).

(** One step of the loop of [execStandUpTraj]. *)
Definition standup_step {D} `{Scalar D} `{Trig D}
  (getState : Trajectory D -> D -> Vector3d D * Vector3d D * Vector3d D)
  (t : D) (oq : option (Quadruped D)) (i : nat) : option (Quadruped D) :=
  q <- oq ;; execStandUpTraj_leg getState t q i.

(** A call of the gait: the planner or the follower. *)
Definition is_gait {D} (c : Call D) : bool :=
  is_planDynamicGait c || is_followDynamicGait c.
Definition no_gait {D} (log : list (Call D)) : bool :=
  forallb (fun c => negb (is_gait c)) log.

(** What holds of the loop of dynamicWalk.cpp after any number of passes
    from [DynamicWalk.init]. *)
Definition walk_invariant {D Q} (s : DynamicWalk.Loop D Q) : Prop :=
  count is_freeze (DynamicWalk.calls s) = 0%nat /\
  follows_unplanned (DynamicWalk.calls s) = false /\
  (count is_planDynamicGait (DynamicWalk.calls s)
   <= count is_followDynamicGait (DynamicWalk.calls s))%nat /\
  (((DynamicWalk.cur_ctrl_state s = DynamicWalk.QUAD_CTRL_STAND_UP1 \/
     DynamicWalk.cur_ctrl_state s = DynamicWalk.QUAD_CTRL_STAND_UP2) /\
    no_gait (DynamicWalk.calls s) = true /\
    count is_startBodyRUpdate (DynamicWalk.calls s) = 0%nat) \/
   (DynamicWalk.cur_ctrl_state s = DynamicWalk.QUAD_DYNAMIC_WALK /\
    count is_startBodyRUpdate (DynamicWalk.calls s) = 1%nat /\
    (DynamicWalk.first_time_enter s = false ->
     no_gait (DynamicWalk.calls s) = false))).

(** The robot [R] with other answers from [spreadAllLegs] and
    [pushAllLegs]: the same effect on the robot, another boolean. *)
Definition answering {D Q} (R : DynamicWalk.Robot D Q)
  (spread : Q -> bool) (push : D -> D -> Q -> bool) : DynamicWalk.Robot D Q :=
  {| DynamicWalk.spreadAllLegs :=
       fun q => (fst (DynamicWalk.spreadAllLegs q), spread q);
     DynamicWalk.pushAllLegs :=
       fun t s q => (fst (DynamicWalk.pushAllLegs t s q), push t s q);
     DynamicWalk.startBodyRUpdate := DynamicWalk.startBodyRUpdate;
     DynamicWalk.getTotalTime := DynamicWalk.getTotalTime;
     DynamicWalk.planDynamicGait := DynamicWalk.planDynamicGait;
     DynamicWalk.followDynamicGait := DynamicWalk.followDynamicGait;
     DynamicWalk.freeze := DynamicWalk.freeze |}.

(** Readings of a clock that does not go back: each pass reads
    [state_curr_time] no earlier than [t], the latest reading before it, and
    a new [state_enter_time] no earlier than that. *)
Fixpoint monotone_from (t : time_point) (ticks : list Clock) : Prop :=
  match ticks with
  | [] => True
  | clk :: rest =>
      (t <= now_curr clk)%Z /\ (now_curr clk <= now_enter clk)%Z /\
      monotone_from (now_enter clk) rest
  end.

(** The nanoseconds the stand-up has taken at least when the loop of
    dynamicWalk.cpp is in state [st]: 1.9 s for each stage left behind. *)
Definition stand_up_ns (st : Z) : Z :=
  if Z.eqb st DynamicWalk.QUAD_CTRL_STAND_UP2 then 1900000000
  else if Z.eqb st DynamicWalk.QUAD_DYNAMIC_WALK then 3800000000
  else 0.

(** * Properties *)

Unset Implicit Arguments.

(** ** The ideal scalars *)

Lemma xdiv_XR (a b : R) : b <> 0%R -> xdiv (XR a) (XR b) = XR (a / b).
Proof. intro H. simpl. now destruct (Req_dec_T b 0). Qed.

Lemma xsqrt_XR (a : R) : (0 <= a)%R -> xsqrt (XR a) = XR (R_sqrt.sqrt a).
Proof. intro H. simpl. destruct (Rlt_dec a 0); [lra | reflexivity]. Qed.

Lemma xltb_XR_true (a b : R) : (a < b)%R -> xltb (XR a) (XR b) = true.
Proof. intro H. simpl. now destruct (Rlt_dec a b). Qed.

Lemma lit_xreal_0 (m : Z) : lit m 0 = XR (IZR m).
Proof. reflexivity. Qed.

Lemma lit_xreal_1 (m : Z) : lit m 1 = XR (IZR m / 10).
Proof. unfold lit. apply xdiv_XR. simpl. lra. Qed.

Lemma lit_xreal_2 (m : Z) : lit m 2 = XR (IZR m / 100).
Proof. unfold lit. apply xdiv_XR. simpl. lra. Qed.

Lemma lit_xreal_3 (m : Z) : lit m 3 = XR (IZR m / 1000).
Proof. unfold lit. apply xdiv_XR. simpl. lra. Qed.

Create Rewrite HintDb xreal_lit.
#[export] Hint Rewrite lit_xreal_0 lit_xreal_1 lit_xreal_2 lit_xreal_3
  : xreal_lit.

(** ** IEEE doubles *)

Lemma SFcompare_antisym (x y : spec_float) :
  SFcompare y x = option_map CompOpp (SFcompare x y).
Proof.
  destruct x as [sx|sx| |sx mx ex], y as [sy|sy| |sy my ey]; simpl;
    try destruct sx; try destruct sy; try reflexivity.
  - rewrite (Z.compare_antisym ex ey).
    destruct (ex ?= ey)%Z; simpl; try reflexivity.
    now rewrite (Pos.compare_cont_antisym mx my Eq).
  - rewrite (Z.compare_antisym ex ey).
    destruct (ex ?= ey)%Z; simpl; try reflexivity.
    now rewrite (Pos.compare_cont_antisym mx my Eq).
Qed.

Lemma SFcompare_refl (x : spec_float) :
  x <> S754_nan -> SFcompare x x = Some Eq.
Proof.
  destruct x as [s|s| |s m e]; simpl; intro H;
    try destruct s; try reflexivity; try congruence;
    rewrite Z.compare_refl, Pos.compare_cont_refl; reflexivity.
Qed.

Lemma SFcompare_none (x y : spec_float) :
  SFcompare x y = None -> x = S754_nan \/ y = S754_nan.
Proof.
  destruct x as [sx|sx| |sx mx ex], y as [sy|sy| |sy my ey]; simpl;
    intro H; auto; discriminate.
Qed.

Lemma binary64_is_nan_spec (x : float) :
  PrimFloat.is_nan x = true <-> Prim2SF x = S754_nan.
Proof.
  unfold PrimFloat.is_nan. rewrite eqb_spec. unfold SFeqb. split.
  - intro H. destruct (Prim2SF x) eqn:E; try reflexivity;
      rewrite SFcompare_refl in H by discriminate; discriminate.
  - intros ->. reflexivity.
Qed.

(** [not (y < x)] is [x <= y] or a NaN. *)
Lemma binary64_not_ltb (x y : float) :
  PrimFloat.is_nan y = false ->
  (PrimFloat.ltb y x = false <->
   PrimFloat.leb x y = true \/ PrimFloat.is_nan x = true).
Proof.
  intro Hy.
  assert (Hy' : Prim2SF y <> S754_nan).
  { intro E. apply binary64_is_nan_spec in E. congruence. }
  rewrite binary64_is_nan_spec, ltb_spec, leb_spec. unfold SFltb, SFleb.
  rewrite (SFcompare_antisym (Prim2SF x) (Prim2SF y)).
  destruct (SFcompare (Prim2SF x) (Prim2SF y)) as [[| |]|] eqn:E; simpl.
  - split; auto.
  - split; auto.
  - split; [discriminate|]. intros [H|H]; [discriminate|].
    rewrite H in E. discriminate.
  - split; [|reflexivity]. intros _. right.
    destruct (SFcompare_none _ _ E); [assumption | contradiction].
Qed.

Lemma binary64_ltb_leb (x y : binary64) :
  PrimFloat.ltb x y = true -> PrimFloat.leb x y = true.
Proof.
  rewrite ltb_spec, leb_spec. unfold SFltb, SFleb.
  destruct (SFcompare (Prim2SF x) (Prim2SF y)) as [[| |]|];
    intro H; reflexivity || discriminate.
Qed.

Lemma binary64_neq (x y : binary64) :
  PrimFloat.eqb x x = true -> PrimFloat.eqb x y = false -> x <> y.
Proof. intros Hx Hxy E. rewrite <- E in Hxy. congruence. Qed.

(** ** The control loops *)


Section DynamicWalkFacts.
Import DynamicWalk.
Context {D : Type} {SD : Scalar D} {Q : Type} {RQ : Robot D Q}.
Local Open Scope dbl_scope.

Lemma run_app (a b : list Clock) (s : Loop D Q) :
  run (a ++ b) s = run b (run a s).
Proof. apply fold_left_app. Qed.


(** One pass in the fallback: the robot is frozen, nothing else changes. *)
Lemma switch_fallback (clk : Clock) (s : Loop D Q) :
  unmodelled (cur_ctrl_state s) ->
  control_switch clk s =
  {| cur_ctrl_state := cur_ctrl_state s;
     state_enter_time := state_enter_time s;
     state_curr_time := state_curr_time s;
     state_run_time := state_run_time s;
     isFinished := isFinished s; first_time_enter := first_time_enter s;
     quadruped := freeze (quadruped s);
     calls := calls s ++ [call_freeze] |}.
Proof.
  intros (H0 & H1 & H2). unfold control_switch.
  unfold QUAD_CTRL_STAND_UP1, QUAD_CTRL_STAND_UP2, QUAD_DYNAMIC_WALK.
  destruct (Z.eqb_spec (cur_ctrl_state s) 0); [contradiction|].
  destruct (Z.eqb_spec (cur_ctrl_state s) 1); [contradiction|].
  destruct (Z.eqb_spec (cur_ctrl_state s) 2); [contradiction|].
  reflexivity.
Qed.

Lemma run_fallback (ticks : list Clock) (s : Loop D Q) :
  unmodelled (cur_ctrl_state s) ->
  cur_ctrl_state (run ticks s) = cur_ctrl_state s /\
  calls (run ticks s) = calls s ++ repeat call_freeze (length ticks).
Proof.
  revert s. induction ticks as [|clk ticks IH]; intros s Hs; simpl.
  - now rewrite app_nil_r.
  - destruct (IH (control_switch clk s)) as [Hc Hl].
    + now rewrite switch_fallback.
    + rewrite Hc, Hl, switch_fallback by assumption. simpl.
      split; [reflexivity|]. now rewrite <- app_assoc.
Qed.

(** One pass in each of the three states. *)
Lemma standup1_pass (clk : Clock) (s : Loop D Q) :
  cur_ctrl_state s = QUAD_CTRL_STAND_UP1 ->
  let s' := control_switch clk s in
  cur_ctrl_state s' =
    (if time_in_state clk s >=? startup_seconds
     then QUAD_CTRL_STAND_UP2 else QUAD_CTRL_STAND_UP1) /\
  state_enter_time s' =
    (if time_in_state clk s >=? startup_seconds
     then now_enter clk else state_enter_time s) /\
  first_time_enter s' = first_time_enter s /\
  calls s' = calls s ++ [call_spreadAllLegs].
Proof.
  intro Hc. unfold control_switch, time_in_state. rewrite Hc. simpl.
  destruct (spreadAllLegs (quadruped s)) as [q1 fin].
  destruct (seconds (now_curr clk) (state_enter_time s) >=? startup_seconds);
    simpl; auto.
Qed.

Lemma standup2_pass (clk : Clock) (s : Loop D Q) :
  cur_ctrl_state s = QUAD_CTRL_STAND_UP2 ->
  let s' := control_switch clk s in
  let t := time_in_state clk s in
  cur_ctrl_state s' =
    (if t >=? startup_seconds then QUAD_DYNAMIC_WALK else QUAD_CTRL_STAND_UP2) /\
  state_enter_time s' =
    (if t >=? startup_seconds then now_enter clk else state_enter_time s) /\
  first_time_enter s' =
    (if t >=? startup_seconds then true else first_time_enter s) /\
  calls s' =
    calls s ++ call_pushAllLegs t startup_seconds ::
      (if t >=? startup_seconds then [call_startBodyRUpdate] else []).
Proof.
  intro Hc. unfold control_switch, time_in_state. rewrite Hc. simpl.
  destruct (pushAllLegs _ _ (quadruped s)) as [q1 fin].
  destruct (seconds (now_curr clk) (state_enter_time s) >=? startup_seconds);
    simpl; rewrite <- ?app_assoc; auto.
Qed.

(** A pass of the walk at or past the end of the gait cycle: the two
    variables are reset and the robot is left alone. *)
Lemma walk_pass_boundary (clk : Clock) (s : Loop D Q) :
  cur_ctrl_state s = QUAD_DYNAMIC_WALK ->
  (time_in_state clk s >=? getTotalTime (quadruped s)) = true ->
  control_switch clk s =
  {| cur_ctrl_state := cur_ctrl_state s;
     state_enter_time := now_enter clk;
     state_curr_time := now_curr clk;
     state_run_time := time_in_state clk s;
     isFinished := isFinished s; first_time_enter := true;
     quadruped := quadruped s;
     calls := calls s ++ [call_getTotalTime] |}.
Proof.
  intros Hc Ht. unfold control_switch. unfold time_in_state in *.
  rewrite Hc. simpl. now rewrite Ht.
Qed.

(** A pass of the walk inside the gait cycle: the planner runs first when
    [first_time_enter] is set, and the gait is followed. *)
Lemma walk_pass_inside (clk : Clock) (s : Loop D Q) :
  cur_ctrl_state s = QUAD_DYNAMIC_WALK ->
  (time_in_state clk s >=? getTotalTime (quadruped s)) = false ->
  let t := time_in_state clk s in
  control_switch clk s =
  {| cur_ctrl_state := cur_ctrl_state s;
     state_enter_time := state_enter_time s;
     state_curr_time := now_curr clk;
     state_run_time := t;
     isFinished := isFinished s; first_time_enter := false;
     quadruped :=
       followDynamicGait t
         (if first_time_enter s
          then planDynamicGait (quadruped s) else quadruped s);
     calls :=
       (if first_time_enter s
        then (calls s ++ [call_getTotalTime]) ++ [call_planDynamicGait]
        else calls s ++ [call_getTotalTime])
       ++ [call_followDynamicGait t] |}.
Proof.
  intros Hc Ht. unfold control_switch. unfold time_in_state in *.
  rewrite Hc. simpl. now rewrite Ht.
Qed.





End DynamicWalkFacts.

Section QuadrupedControlFacts.
Import QuadrupedControl.
Context {D : Type} {SD : Scalar D} {TD : Trig D}.
Variable getState : Trajectory D -> D -> Vector3d D * Vector3d D * Vector3d D.

(** One pass in the fallback of quadruped_control.cpp: nothing happens. *)
Lemma switch_fallback_idle (clk : Clock) (s : Loop D) :
  unmodelled (cur_ctrl_state s) -> control_switch getState clk s = Some s.
Proof.
  intros (H0 & H1 & H2). unfold control_switch.
  unfold HEXA_CTRL_STAND_UP_PLAN, HEXA_CTRL_STAND_UP, QUAD_CTRL_NORMAL.
  destruct (Z.eqb_spec (cur_ctrl_state s) 0); [contradiction|].
  destruct (Z.eqb_spec (cur_ctrl_state s) 1); [contradiction|].
  now destruct (Z.eqb (cur_ctrl_state s) 2).
Qed.

Lemma run_fallback_idle (ticks : list Clock) (s : Loop D) :
  unmodelled (cur_ctrl_state s) -> run getState ticks s = Some s.
Proof.
  intro Hs. unfold run.
  induction ticks as [|clk ticks IH]; simpl; [reflexivity|].
  now rewrite switch_fallback_idle.
Qed.

End QuadrupedControlFacts.

(** C4 (as amended). When the state variable holds the count sentinel or any
    value outside the three states, the loop of dynamicWalk.cpp calls
    [freeze] once per pass, and nothing else, for as many passes as follow;
    the loop of quadruped_control.cpp does nothing at all in such a pass: it
    makes no call on the robot, [freeze] included. Both stay in that state
    and neither stops. *)
Theorem fallback_state_freezes_in_dynamic_walk_only
  (D : Type) (SD : Scalar D) (TD : Trig D) (Q : Type)
  (RQ : DynamicWalk.Robot D Q)
  (getState : Trajectory D -> D -> Vector3d D * Vector3d D * Vector3d D)
  (ticks : list Clock)
  (s : DynamicWalk.Loop D Q) (h : QuadrupedControl.Loop D) :
  unmodelled (DynamicWalk.cur_ctrl_state s) ->
  unmodelled (QuadrupedControl.cur_ctrl_state h) ->
  (DynamicWalk.cur_ctrl_state (DynamicWalk.run ticks s)
     = DynamicWalk.cur_ctrl_state s /\
   DynamicWalk.calls (DynamicWalk.run ticks s)
     = DynamicWalk.calls s ++ repeat call_freeze (length ticks)) /\
  QuadrupedControl.run getState ticks h = Some h.
Proof.
  intros Hs Hh. split.
  - now apply run_fallback.
  - now apply run_fallback_idle.
Qed.

Lemma fallback_state_witness :
  DynamicWalk.calls
    (DynamicWalk.run (every_5ms 0 3) (stuck_walk (D := xreal)))
    = [call_freeze; call_freeze; call_freeze] /\
  QuadrupedControl.run hold_first (every_5ms 0 3) (stuck_control (D := xreal))
    = Some stuck_control.
Proof.
  assert (Hu : unmodelled 3) by (repeat split; discriminate).
  destruct (@fallback_state_freezes_in_dynamic_walk_only
              xreal xreal_scalar xreal_trig (Counting xreal) counting_robot
              hold_first (every_5ms 0 3)
              stuck_walk stuck_control Hu Hu) as [[_ Hw] Hc].
  split; [exact Hw | exact Hc].
Defined.

(** C4 as stated fails in quadruped_control.cpp: with the count sentinel in
    the state variable, a pass makes no [freeze] call. *)
Lemma fallback_without_freeze :
  ~ (exists h',
       QuadrupedControl.control_switch hold_first (tick_at 0)
         (stuck_control (D := xreal)) = Some h' /\
       In call_freeze (QuadrupedControl.calls h')).
Proof.
  intros (h' & Heq & Hin).
  rewrite switch_fallback_idle in Heq by (repeat split; discriminate).
  injection Heq as <-. exact Hin.
Qed.







(** ** Gravity fusion *)

Section GravityFacts.
Context {D : Type} {SD : Scalar D}.

(** A leg whose estimate has a NaN component is skipped. *)
Lemma add_leg_gravity_nan (q : Quadruped D) (fbk : GroupFeedback D)
  (acc : Vector3d D) (i : nat) :
  has_nan (my_grav q fbk i) = true -> add_leg_gravity q fbk acc i = acc.
Proof.
  unfold add_leg_gravity, has_nan. intro H.
  destruct (isnan (vx (my_grav q fbk i))),
           (isnan (vy (my_grav q fbk i))),
           (isnan (vz (my_grav q fbk i))); simpl in *;
    reflexivity || discriminate.
Qed.

Lemma add_leg_gravity_valid (q : Quadruped D) (fbk : GroupFeedback D)
  (acc : Vector3d D) (i : nat) :
  has_nan (my_grav q fbk i) = false ->
  add_leg_gravity q fbk acc i = vadd acc (my_grav q fbk i).
Proof.
  unfold add_leg_gravity, has_nan. intro H.
  destruct (isnan (vx (my_grav q fbk i))),
           (isnan (vy (my_grav q fbk i))),
           (isnan (vz (my_grav q fbk i))); simpl in *;
    reflexivity || discriminate.
Qed.

Lemma fold_gravity_all_nan (q : Quadruped D) (fbk : GroupFeedback D)
  (legs : list nat) (acc : Vector3d D) :
  (forall i, In i legs -> has_nan (my_grav q fbk i) = true) ->
  fold_left (add_leg_gravity q fbk) legs acc = acc.
Proof.
  revert acc. induction legs as [|i legs IH]; intros acc H; simpl.
  - reflexivity.
  - rewrite add_leg_gravity_nan by (apply H; now left).
    apply IH. intros j Hj. apply H. now right.
Qed.

Lemma feedbackHandler_gravity (q : Quadruped D) (fbk : GroupFeedback D) :
  getGravityDirection (feedbackHandler fbk q) = avg_grav q fbk.
Proof. reflexivity. Qed.

End GravityFacts.

(** C2 (as amended). When the rotated estimate of every one of the six legs
    has a NaN component, the handler overwrites the fused gravity direction
    with the zero vector, whatever it held before; it is never overwritten
    with NaN. *)
Theorem all_nan_feedback_zeroes_gravity
  (q : Quadruped binary64) (fbk : GroupFeedback binary64) :
  (forall i, (i < 6)%nat -> has_nan (my_grav q fbk i) = true) ->
  getGravityDirection (feedbackHandler fbk q) = vzero /\
  has_nan (getGravityDirection (feedbackHandler fbk q)) = false.
Proof.
  intro H.
  assert (E : getGravityDirection (feedbackHandler fbk q) = vzero).
  { rewrite feedbackHandler_gravity. unfold avg_grav.
    rewrite fold_gravity_all_nan; [reflexivity|].
    intros i Hi. apply H. apply in_seq in Hi. unfold num_legs_ in Hi. lia. }
  split; [exact E | rewrite E; reflexivity].
Qed.

Lemma all_nan_feedback_witness :
  forallb (fun i => has_nan (my_grav (bench (D := binary64) vzero) all_silent i))
          (seq 0 6) = true /\
  getGravityDirection (feedbackHandler all_silent (bench (D := binary64) vzero))
    = vzero.
Proof.
  split; [vm_compute; reflexivity|].
  apply (all_nan_feedback_zeroes_gravity (bench vzero) all_silent).
  intros i Hi.
  do 6 (destruct i as [|i]; [vm_compute; reflexivity|]). lia.
Defined.

(** C2 as stated fails: the bench holds the gravity direction (0, 0, -1);
    after a feedback in which no module reports its orientation, it holds
    another vector. *)
Lemma all_nan_feedback_changes_gravity :
  forallb (fun i => has_nan (my_grav (bench (D := binary64) vzero) all_silent i))
          (seq 0 6) = true /\
  getGravityDirection (feedbackHandler all_silent (bench (D := binary64) vzero))
    <> getGravityDirection (bench vzero).
Proof.
  split; [vm_compute; reflexivity|].
  intro E. apply (f_equal (@vz binary64)) in E. revert E.
  apply binary64_neq; vm_compute; reflexivity.
Qed.

(** ** Spreading the legs *)

Section SpreadFacts.
Context {D : Type} {SD : Scalar D}.
Local Open Scope dbl_scope.

(** The first loop leaves in [goal] the IK solution of the last leg. *)
Lemma spread_goal_is_last (q : Quadruped D) :
  snd (fold_left (spread_command q) (seq 0 num_legs_) (cmd_ q, vzero))
  = last_goal q.
Proof. reflexivity. Qed.

(** The second loop answers [true] exactly when no test fired. *)
Lemma spread_check_all (q : Quadruped D) (goal : Vector3d D)
  (legs : list nat) (b : bool) :
  fold_left (spread_check q goal) legs b = true <->
  b = true /\
  forall i, In i legs ->
    (norm (vsub goal (getJointAngle (legs_ q i))) >? lit 5 1) = false.
Proof.
  revert b. induction legs as [|i legs IH]; intro b; simpl.
  - split; [intro H; split; [exact H | intros i []] | intros [H _]; exact H].
  - rewrite IH. unfold spread_check at 1.
    destruct (norm (vsub goal (getJointAngle (legs_ q i))) >? lit 5 1) eqn:E.
    + split; [intros [H _]; discriminate|].
      intros [_ H]. specialize (H i (or_introl eq_refl)).
      rewrite E in H. discriminate.
    + split.
      * intros [Hb H]. split; [exact Hb|].
        intros j [<-|Hj]; [exact E | now apply H].
      * intros [Hb H]. split; [exact Hb|]. intros j Hj. apply H. now right.
Qed.

End SpreadFacts.

Lemma spreadAllLegs_no_norm_exceeds
  (D : Type) (SD : Scalar D) (q : Quadruped D) :
  snd (spreadAllLegs q) = true <->
  forall i, (i < 6)%nat ->
    (norm (vsub (last_goal q) (getJointAngle (legs_ q i))) >? lit 5 1)%dbl
    = false.
Proof.
  change (snd (spreadAllLegs q))
    with (fold_left (spread_check q (last_goal q)) (seq 0 num_legs_) true).
  rewrite spread_check_all. unfold num_legs_. split.
  - intros [_ H] i Hi. apply H. apply in_seq. lia.
  - intro H. split; [reflexivity|]. intros i Hi. apply H.
    apply in_seq in Hi. lia.
Qed.

(** C9 (as amended). On doubles, [spreadAllLegs] returns true if and only if,
    for every leg, the norm of the difference between the goal and that
    leg's joint angles is at most 0.5 or is NaN, where the goal is the IK
    solution of the last leg (index 5) for every leg: the solutions of legs
    0..4 are commanded but not compared with. *)
Theorem spreadAllLegs_compares_with_last_goal (q : Quadruped binary64) :
  snd (spreadAllLegs q) = true <->
  forall i, (i < 6)%nat ->
    let n := norm (vsub (last_goal q) (getJointAngle (legs_ q i))) in
    (n <=? lit 5 1)%dbl = true \/ isnan n = true.
Proof.
  assert (Hc : PrimFloat.is_nan (lit 5 1 : binary64) = false)
    by (vm_compute; reflexivity).
  rewrite spreadAllLegs_no_norm_exceeds.
  split; intros H i Hi; specialize (H i Hi); cbv zeta in *;
    now apply (binary64_not_ltb _ _ Hc).
Qed.

Lemma spreadAllLegs_witness :
  snd (spreadAllLegs
         (bench (D := binary64) (V3 (opp (lit 55 2)) (of_Z 0) (lit 5 2))))
  = true.
Proof.
  apply (spreadAllLegs_compares_with_last_goal _).
  intros i Hi. left.
  do 6 (destruct i as [|i]; [vm_compute; reflexivity|]). lia.
Defined.

(** C9 as stated fails: before any module has reported, every joint angle is
    NaN; [spreadAllLegs] returns true although no norm is at most 0.5. *)
Lemma spreadAllLegs_true_on_nan :
  ~ (snd (spreadAllLegs (bench_unreported (D := binary64))) = true <->
     forall i, (i < 6)%nat ->
       (norm (vsub (last_goal bench_unreported)
                   (getJointAngle (legs_ (bench_unreported (D := binary64)) i)))
          <=? lit 5 1)%dbl = true).
Proof.
  intros [H _].
  specialize (H ltac:(vm_compute; reflexivity) 0%nat ltac:(lia)).
  vm_compute in H. discriminate.
Qed.

(** ** The stand-up ramp *)

Lemma ramp_up_scale_binary64 (t : binary64) :
  ramp_up_scale t =
  if PrimFloat.ltb (PrimFloat.add t (lit 5 4)) (of_Z 1)
  then PrimFloat.add t (lit 5 4) else of_Z 1.
Proof. reflexivity. Qed.

(** C5 (as amended). In [execStandUpTraj] the foot force handed to the
    torque computation of a leg is that leg's column of the foot-force
    distribution times the ramp factor [min(1, t + 0.0005)]. On doubles the
    factor is 0.0005, not 0, at t = 0; it is t + 0.0005 as long as that is
    below 1, so it is 0.5005 at t = 0.5 s and reaches 1 at t = 0.9995 s; it
    is 1 from then on and never exceeds 1, whatever t is. *)
Theorem standup_foot_force_ramp
  (D : Type) (SD : Scalar D) (TD : Trig D)
  (getState : Trajectory D -> D -> Vector3d D * Vector3d D * Vector3d D)
  (q : Quadruped D) (curr_time : D) (i : nat) (traj : Trajectory D)
  (t : binary64) :
  nth_error (startup_trajectories q) i = Some traj ->
  execStandUpTraj_leg getState curr_time q i =
    Some (setCommand i
            (Some (fst (fst (getState traj curr_time))))
            (Some (snd (fst (getState traj curr_time))))
            (Some (computeCompensateTorques (legs_ q i)
                     (fst (fst (getState traj curr_time)))
                     (snd (fst (getState traj curr_time)))
                     (vmuls (getGravityDirection q) g_9_8f)
                     (vmuls (nth i (computeFootForces q) vzero)
                            (ramp_up_scale curr_time))))
            q) /\
  ramp_up_scale (of_Z 0 : binary64) = lit 5 4 /\
  ramp_up_scale (lit 5 1 : binary64) = lit 5005 4 /\
  ramp_up_scale (lit 9995 4 : binary64) = of_Z 1 /\
  ((t + lit 5 4 <? of_Z 1)%dbl = true -> ramp_up_scale t = (t + lit 5 4)%dbl) /\
  ((t + lit 5 4 <? of_Z 1)%dbl = false -> ramp_up_scale t = of_Z 1) /\
  (ramp_up_scale t <=? of_Z 1)%dbl = true.
Proof.
  intro Hn. split.
  { unfold execStandUpTraj_leg. rewrite Hn.
    destruct (getState traj curr_time) as [[angles vels] accs]. reflexivity. }
  split; [vm_compute; reflexivity|].
  split; [vm_compute; reflexivity|].
  split; [vm_compute; reflexivity|].
  rewrite ramp_up_scale_binary64.
  change ((t + lit 5 4 <? of_Z 1)%dbl)
    with (PrimFloat.ltb (PrimFloat.add t (lit 5 4)) (of_Z 1)).
  destruct (PrimFloat.ltb (PrimFloat.add t (lit 5 4)) (of_Z 1)) eqn:E.
  - split; [reflexivity|]. split; [intro; discriminate|].
    apply binary64_ltb_leb. exact E.
  - split; [intro; discriminate|]. split; reflexivity.
Qed.

Lemma standup_foot_force_ramp_witness :
  ramp_up_scale (lit 25 2 : binary64) = lit 2505 4 /\
  exists q',
    execStandUpTraj_leg hold_first (XR 0) (bench_planned (D := xreal)) 0
    = Some q'.
Proof.
  destruct (standup_foot_force_ramp xreal _ _ hold_first bench_planned (XR 0)
              0%nat (standup_trajectory (bench vzero) (lit 45 1) 0)
              (lit 25 2) eq_refl)
    as (H1 & _ & _ & _ & H5 & _).
  split.
  - rewrite H5 by (vm_compute; reflexivity). vm_compute. reflexivity.
  - eexists. exact H1.
Defined.

(** C5 as stated fails: at t = 0 the ramp factor is not 0, and half a second
    into the trajectory it is not yet 1. *)
Lemma ramp_not_zero_at_start :
  ramp_up_scale (of_Z 0 : binary64) <> of_Z 0 /\
  ramp_up_scale (lit 5 1 : binary64) <> of_Z 1.
Proof.
  split; apply binary64_neq; vm_compute; reflexivity.
Qed.

(** ** Stand-up trajectories *)

Section StandUpFacts.
Context {D : Type} {SD : Scalar D}.

Lemma planStandUpTraj_appends (d : D) (q : Quadruped D) :
  startup_trajectories (planStandUpTraj_loop d q) =
  startup_trajectories q ++ map (standup_trajectory q d) (seq 0 num_legs_).
Proof.
  unfold planStandUpTraj_loop, planStandUpTraj_leg. simpl.
  now rewrite <- !app_assoc.
Qed.

Lemma nth_error_appended {A} (l : list A) (f : nat -> A) (n i : nat) :
  (i < n)%nat ->
  nth_error (l ++ map f (seq 0 n)) (length l + i) = Some (f i).
Proof.
  intro Hi. rewrite nth_error_app2 by lia.
  replace (length l + i - length l)%nat with i by lia.
  rewrite nth_error_map, nth_error_seq.
  destruct (Nat.ltb_spec i n); [reflexivity | lia].
Qed.

End StandUpFacts.



(** ** The gait step *)

Section GaitFacts.
Context {D : Type} {SD : Scalar D}.
Variable getState : Trajectory D -> D -> Vector3d D * Vector3d D * Vector3d D.

(** The commands one leg of a virtual leg receives. *)
Lemma follow_leg_some (q : Quadruped D) (trajs : list (Trajectory D)) (t : D)
  (foot_force : Vector3d D) (c : GroupCommand D) (k leg : nat) :
  follow_leg getState q trajs t foot_force (Some c) (k, leg) =
  match nth_error trajs k with
  | Some traj =>
      let traj_angles := fst (fst (getState traj t)) in
      let traj_vels := snd (fst (getState traj t)) in
      Some (cmd_leg set_effort (leg * num_joints_per_leg_)
              (computeCompensateTorques (legs_ q leg) traj_angles traj_vels
                 (vmuls (getGravityDirection q) g_9_8f) foot_force)
              (cmd_leg set_position (leg * num_joints_per_leg_) traj_angles c))
  | None => None
  end.
Proof.
  unfold follow_leg. simpl. destruct (nth_error trajs k) as [traj|]; auto.
  now destruct (getState traj t) as [[a v] x].
Qed.

Lemma follow_leg_none (q : Quadruped D) (trajs : list (Trajectory D)) (t : D)
  (foot_force : Vector3d D) (il : nat * nat) :
  follow_leg getState q trajs t foot_force None il = None.
Proof. reflexivity. Qed.

End GaitFacts.

(** C7. In a gait step, for either swing mode and any time, the swing and the
    stance virtual legs are the diagonal pairs {0,5} and {1,4}, swapped
    between the two modes. [prepareTrajectories] plans two swing
    trajectories, which start at the IK solution of the home stance point,
    [base_frame * (0.45, 0, -0.28)], of the first and of the second leg of
    the swing pair, and two stance trajectories, which start at the joint
    angles of the first and of the second leg of the stance pair. [runTest]
    commands the first and the second leg of each pair to the position the
    first and the second trajectory of that kind has at that time. Legs 2
    and 3 are commanded to the IK solution of [base_frame * (0.35, 0, 0)]
    offset by (0.07, 0, 0), in which neither the time nor the mode
    occurs. *)
Theorem gait_step_virtual_legs
  (D : Type) (SD : Scalar D)
  (getState : Trajectory D -> D -> Vector3d D * Vector3d D * Vector3d D)
  (mode : SwingMode) (curr_time total_time leg_swing_time : D)
  (q q' : Quadruped D) :
  runTest getState mode curr_time total_time q = Some q' ->
  let swing := match mode with
               | swing_mode_virtualLeg1 => (0, 5)
               | swing_mode_virtualLeg2 => (1, 4)
               end%nat in
  let stance := match mode with
                | swing_mode_virtualLeg1 => (1, 4)
                | swing_mode_virtualLeg2 => (0, 5)
                end%nat in
  let home leg :=
    computeIK (legs_ q leg)
      (top3 (mat4_vec4 (getBaseFrame (legs_ q leg))
               (V4 (lit 45 2) (of_Z 0) (- lit 28 2)%dbl (of_Z 0)))) in
  let held leg :=
    computeIK (legs_ q leg)
      (vadd (top3 (mat4_vec4 (getBaseFrame (legs_ q leg))
                     (V4 (lit 35 2) (of_Z 0) (of_Z 0) (of_Z 0))))
            (V3 (lit 7 2) (of_Z 0) (of_Z 0))) in
  let planned := prepareTrajectories mode leg_swing_time q in
  let at_time traj := commanded (fst (fst (getState traj curr_time))) in
  swing_vleg mode = [fst swing; snd swing] /\
  stance_vleg mode = [fst stance; snd stance] /\
  map (fun traj => hd_error (positions traj)) (swing_trajectories planned)
    = [Some (home (fst swing)); Some (home (snd swing))] /\
  map (fun traj => hd_error (positions traj)) (stance_trajectories planned)
    = [Some (getJointAngle (legs_ q (fst stance)));
       Some (getJointAngle (legs_ q (snd stance)))] /\
  (exists first second rest,
     swing_trajectories q = first :: second :: rest /\
     leg_positions (cmd_ q') (fst swing) = at_time first /\
     leg_positions (cmd_ q') (snd swing) = at_time second) /\
  (exists first second rest,
     stance_trajectories q = first :: second :: rest /\
     leg_positions (cmd_ q') (fst stance) = at_time first /\
     leg_positions (cmd_ q') (snd stance) = at_time second) /\
  leg_positions (cmd_ q') 2 = commanded (held 2%nat) /\
  leg_positions (cmd_ q') 3 = commanded (held 3%nat).
Proof.
  intros H swing stance home held planned at_time.
  split; [destruct mode; reflexivity|].
  split; [destruct mode; reflexivity|].
  split; [destruct mode; reflexivity|].
  split; [destruct mode; reflexivity|].
  unfold runTest in H.
  destruct (swing_trajectories q) as [|s0 [|s1 sw]] eqn:Esw;
    destruct (stance_trajectories q) as [|st0 [|st1 stn]] eqn:Est;
    destruct mode.
  all: cbn [fold_left enumerate swing_vleg stance_vleg combine seq length] in H.
  all: repeat (rewrite ?follow_leg_some, ?follow_leg_none in H;
               cbn [nth_error] in H).
  all: try discriminate.
  all: injection H as <-.
  all: split; [exists s0, s1, sw; repeat split|].
  all: split; [exists st0, st1, stn; repeat split|].
  all: split; reflexivity.
Qed.

Lemma gait_step_witness :
  exists q',
    runTest hold_first swing_mode_virtualLeg1 (lit 1 1) (lit 4 1)
      (bench_gait (D := binary64) swing_mode_virtualLeg1) = Some q' /\
    leg_positions (cmd_ q') 2 = commanded (V3 (lit 7 2) (lit 35 2) (of_Z 0)) /\
    leg_positions (cmd_ q') 3
    = commanded (V3 (lit 7 2) (opp (lit 35 2)) (of_Z 0)) /\
    leg_positions (cmd_ q') 0 = commanded (V3 (lit 45 2) (of_Z 0) (opp (lit 28 2))).
Proof.
  assert (Hs : exists q',
             runTest hold_first swing_mode_virtualLeg1 (lit 1 1) (lit 4 1)
               (bench_gait (D := binary64) swing_mode_virtualLeg1) = Some q')
    by (eexists; reflexivity).
  destruct Hs as [q' E]. exists q'. split; [exact E|].
  destruct (gait_step_virtual_legs binary64 _ hold_first
              swing_mode_virtualLeg1 (lit 1 1) (lit 4 1) (lit 4 1) _ q' E)
    as (_ & _ & _ & _ & (first & second & rest & Esw & Hfirst & _)
        & _ & Hheld2 & Hheld3).
  cbn [fst snd] in Hfirst.
  split; [rewrite Hheld2; vm_compute; reflexivity|].
  split; [rewrite Hheld3; vm_compute; reflexivity|].
  rewrite Hfirst.
  unfold bench_gait, prepareTrajectories in Esw.
  cbn [swing_trajectories with_swing with_stance map swing_vleg] in Esw.
  injection Esw as <- _ _. vm_compute. reflexivity.
Defined.

(** ** Gravity fusion in real arithmetic *)

Section IdealVectors.
Local Open Scope R_scope.

Lemma squaredNorm_XR (x y z : R) :
  squaredNorm (V3 (XR x) (XR y) (XR z)) = XR (x * x + y * y + z * z).
Proof. reflexivity. Qed.

Lemma norm_XR (x y z : R) :
  norm (V3 (XR x) (XR y) (XR z)) = XR (R_sqrt.sqrt (x * x + y * y + z * z)).
Proof. unfold norm. rewrite squaredNorm_XR. apply xsqrt_XR. nra. Qed.

Lemma vdivs_XR (x y z s : R) :
  s <> 0 ->
  vdivs (V3 (XR x) (XR y) (XR z)) (XR s) =
  V3 (XR (x / s)) (XR (y / s)) (XR (z / s)).
Proof.
  intro H. unfold vdivs. cbn [vx vy vz div xreal_scalar].
  now rewrite !xdiv_XR.
Qed.

Lemma sqrt_nonzero (x : R) : 0 < x -> R_sqrt.sqrt x <> 0.
Proof. intro H. apply Rgt_not_eq. now apply sqrt_lt_R0. Qed.

Lemma normalize_XR (x y z : R) :
  0 < x * x + y * y + z * z ->
  normalize (V3 (XR x) (XR y) (XR z)) =
  vdivs (V3 (XR x) (XR y) (XR z))
        (XR (R_sqrt.sqrt (x * x + y * y + z * z))).
Proof.
  intro H. unfold normalize. rewrite squaredNorm_XR.
  cbn [ltb sqrt of_Z xreal_scalar].
  rewrite xltb_XR_true by exact H.
  rewrite xsqrt_XR by lra. reflexivity.
Qed.

Lemma multiple_norm_pos (k a b c : R) :
  0 < k -> 0 < a * a + b * b + c * c ->
  0 < k * a * (k * a) + k * b * (k * b) + k * c * (k * c).
Proof.
  intros Hk Hn.
  replace (k * a * (k * a) + k * b * (k * b) + k * c * (k * c))
    with (k * k * (a * a + b * b + c * c)) by ring.
  apply Rmult_lt_0_compat; [nra | exact Hn].
Qed.

(** A positive multiple of a vector has the same unit vector. *)
Lemma unit_of_multiple (k a b c : R) :
  0 < k -> 0 < a * a + b * b + c * c ->
  k * a / R_sqrt.sqrt (k * a * (k * a) + k * b * (k * b) + k * c * (k * c))
  = a / R_sqrt.sqrt (a * a + b * b + c * c).
Proof.
  intros Hk Hn.
  replace (k * a * (k * a) + k * b * (k * b) + k * c * (k * c))
    with (k * k * (a * a + b * b + c * c)) by ring.
  rewrite sqrt_mult by nra. rewrite sqrt_square by lra.
  field. split; [now apply sqrt_nonzero | lra].
Qed.

Lemma unit_norm (a b c : R) :
  0 < a * a + b * b + c * c ->
  let s := R_sqrt.sqrt (a * a + b * b + c * c) in
  R_sqrt.sqrt (a / s * (a / s) + b / s * (b / s) + c / s * (c / s)) = 1.
Proof.
  intros Hn s.
  assert (Hs : s <> 0) by now apply sqrt_nonzero.
  assert (Hss : s * s = a * a + b * b + c * c) by (apply sqrt_sqrt; lra).
  replace (a / s * (a / s) + b / s * (b / s) + c / s * (c / s)) with 1.
  - apply sqrt_1.
  - field_simplify_eq; [|exact Hs]. lra.
Qed.

End IdealVectors.

Section IdealFusion.
Variable q : Quadruped xreal.
Variable fbk : GroupFeedback xreal.
Variables a b c : R.
Local Open Scope R_scope.

Hypothesis same :
  forall i, (i < 6)%nat -> has_nan (my_grav q fbk i) = false ->
            my_grav q fbk i = V3 (XR a) (XR b) (XR c).

Lemma fold_gravity_same (legs : list nat) (n : nat) :
  (forall i, In i legs -> (i < 6)%nat) ->
  fold_left (add_leg_gravity q fbk) legs (multiple a b c n)
  = multiple a b c (n + valid_legs q fbk legs).
Proof.
  revert n. induction legs as [|i legs IH]; intros n Hl.
  - simpl. unfold valid_legs. simpl. now rewrite Nat.add_0_r.
  - simpl. unfold valid_legs. simpl.
    destruct (has_nan (my_grav q fbk i)) eqn:E; simpl.
    + rewrite add_leg_gravity_nan by exact E.
      apply IH. intros j Hj. apply Hl. now right.
    + rewrite add_leg_gravity_valid by exact E.
      rewrite (same i (Hl i (or_introl eq_refl)) E).
      replace (vadd (multiple a b c n) (V3 (XR a) (XR b) (XR c)))
        with (multiple a b c (S n)).
      * rewrite IH by (intros j Hj; apply Hl; now right).
        fold (valid_legs q fbk legs). f_equal. lia.
      * unfold multiple, vadd. cbn [vx vy vz add xreal_scalar xlift2].
        rewrite S_INR. f_equal; f_equal; ring.
Qed.

End IdealFusion.

Lemma nonzero_vector_norm (a b c : R) :
  V3 (XR a) (XR b) (XR c) <> vzero -> (0 < a * a + b * b + c * c)%R.
Proof.
  intro H.
  destruct (Req_dec a 0) as [Ha|Ha]; [|nra].
  destruct (Req_dec b 0) as [Hb|Hb]; [|nra].
  destruct (Req_dec c 0) as [Hc|Hc]; [|nra].
  exfalso. apply H. subst. reflexivity.
Qed.

(** C6 (as amended). In real arithmetic: when at least one leg's rotated
    estimate is free of NaN and every estimate free of NaN is the same
    direction vector v (not zero), the fused gravity direction after the
    ingestion is v divided by its norm, a vector of norm 1, however many of
    the other estimates have a NaN component. *)
Theorem fused_gravity_is_true_direction
  (q : Quadruped xreal) (fbk : GroupFeedback xreal) (a b c : R) :
  let v := V3 (XR a) (XR b) (XR c) in
  v <> vzero ->
  (exists i, (i < 6)%nat /\ has_nan (my_grav q fbk i) = false) ->
  (forall i, (i < 6)%nat -> has_nan (my_grav q fbk i) = false ->
             my_grav q fbk i = v) ->
  getGravityDirection (feedbackHandler fbk q) = vdivs v (norm v) /\
  norm (getGravityDirection (feedbackHandler fbk q)) = of_Z 1.
Proof.
  intros v Hv (i0 & Hi0 & Hn0) Hsame.
  pose proof (nonzero_vector_norm a b c Hv) as Hpos.
  set (k := valid_legs q fbk (seq 0 num_legs_)).
  assert (Hk : (0 < INR k)%R).
  { apply lt_0_INR. unfold k, valid_legs.
    assert (Hin : In i0 (filter (fun i => negb (has_nan (my_grav q fbk i)))
                                (seq 0 num_legs_))).
    { apply filter_In. split.
      - apply in_seq. unfold num_legs_. lia.
      - now rewrite Hn0. }
    destruct (filter _ _); [destruct Hin | simpl; lia]. }
  assert (Hfold : fold_left (add_leg_gravity q fbk) (seq 0 num_legs_) vzero
                  = multiple a b c k).
  { replace (@vzero xreal _) with (multiple a b c 0).
    - rewrite (fold_gravity_same q fbk a b c Hsame).
      + reflexivity.
      + intros i Hi. apply in_seq in Hi. unfold num_legs_ in Hi. lia.
    - unfold multiple, vzero. simpl. f_equal; f_equal; ring. }
  assert (Hunit : getGravityDirection (feedbackHandler fbk q)
                  = vdivs v (norm v)).
  { rewrite feedbackHandler_gravity. unfold avg_grav. rewrite Hfold.
    pose proof (multiple_norm_pos (INR k) a b c Hk Hpos) as Hkpos.
    unfold multiple. rewrite normalize_XR by exact Hkpos.
    unfold v. rewrite norm_XR.
    rewrite !vdivs_XR by (apply sqrt_nonzero; assumption).
    f_equal; f_equal.
    - apply unit_of_multiple; assumption.
    - replace (INR k * a * (INR k * a) + INR k * b * (INR k * b)
               + INR k * c * (INR k * c))%R
        with (INR k * b * (INR k * b) + INR k * c * (INR k * c)
              + INR k * a * (INR k * a))%R by ring.
      replace (a * a + b * b + c * c)%R with (b * b + c * c + a * a)%R by ring.
      apply unit_of_multiple; [assumption | lra].
    - replace (INR k * a * (INR k * a) + INR k * b * (INR k * b)
               + INR k * c * (INR k * c))%R
        with (INR k * c * (INR k * c) + INR k * a * (INR k * a)
              + INR k * b * (INR k * b))%R by ring.
      replace (a * a + b * b + c * c)%R with (c * c + a * a + b * b)%R by ring.
      apply unit_of_multiple; [assumption | lra]. }
  split; [exact Hunit|].
  rewrite Hunit. unfold v. rewrite norm_XR.
  rewrite vdivs_XR by (apply sqrt_nonzero; exact Hpos).
  rewrite norm_XR. cbn [of_Z xreal_scalar]. f_equal.
  now apply unit_norm.
Qed.

Lemma fused_gravity_witness :
  getGravityDirection (feedbackHandler three_silent (bench (D := xreal) vzero))
  = V3 (XR 0) (XR 0) (XR (-1)).
Proof.
  destruct (fused_gravity_is_true_direction (bench vzero) three_silent
              0 0 (-1)) as [H _].
  - intro E. injection E as E. lra.
  - exists 2%nat. split; [lia|]. cbv. reflexivity.
  - intros i Hi.
    do 6 (destruct i as [|i];
          [ cbv; try discriminate; intros _; f_equal; f_equal; lra |]).
    lia.
  - rewrite H. rewrite norm_XR.
    rewrite vdivs_XR.
    + f_equal; f_equal.
      all: replace (0 * 0 + 0 * 0 + -1 * -1)%R with 1%R by ring.
      all: rewrite sqrt_1; lra.
    + apply sqrt_nonzero. lra.
Defined.

(** C6 as stated fails on doubles: on the canted bench every leg's estimate
    is free of NaN and is the same vector v = (0.48, -0.36, -0.8), whose
    squared norm and norm are 1 on doubles, so that v is its own unit
    vector; the six additions and the normalisation round, and the fused
    gravity direction is another vector, of a norm other than 1. *)
Lemma fused_gravity_rounds_on_doubles :
  let q := bench_canted (D := binary64) in
  let v : Vector3d binary64 :=
    V3 (lit 48 2) (opp (lit 36 2)) (opp (lit 8 1)) in
  let fused := getGravityDirection (feedbackHandler all_reporting q) in
  map (my_grav q all_reporting) (seq 0 6) = repeat v 6 /\
  has_nan v = false /\
  squaredNorm v = of_Z 1 /\
  vdivs v (norm v) = v /\
  fused <> vdivs v (norm v) /\
  norm fused <> of_Z 1.
Proof.
  intros q v fused.
  split; [vm_compute; reflexivity|]. split; [vm_compute; reflexivity|].
  split; [vm_compute; reflexivity|]. split; [vm_compute; reflexivity|].
  split.
  - intro E. apply (f_equal (@vy binary64)) in E. revert E.
    apply binary64_neq; vm_compute; reflexivity.
  - apply binary64_neq; vm_compute; reflexivity.
Qed.

(** ** Foot forces in real arithmetic *)

Section IdealForces.
Local Open Scope R_scope.

Lemma norm_XR_nonneg (v : Vector3d xreal) (r : R) : norm v = XR r -> 0 <= r.
Proof.
  unfold norm. cbn [sqrt xreal_scalar].
  destruct (squaredNorm v) as [|z]; simpl; [discriminate|].
  destruct (Rlt_dec z 0); [discriminate|].
  intro E. injection E as <-. apply sqrt_pos.
Qed.

(** The last scaling of the factors is by 1: [blend_factors(i)] is 1 and
    the sine of pi is 0. *)
Lemma blend_scaling :
  (of_Z 1 + lit 33 2 * sin (M_PI * of_Z 1))%dbl = XR 1.
Proof.
  rewrite lit_xreal_2. simpl. f_equal. rewrite Rmult_1_r, sin_PI. lra.
Qed.

Lemma normalised_sum (a0 a1 a2 a3 a4 a5 t : R) :
  t <> 0 -> t = a0 + a1 + a2 + a3 + a4 + a5 ->
  a0 / t + a1 / t + a2 / t + a3 / t + a4 / t + a5 / t = 1.
Proof.
  intros Ht E.
  replace (a0 / t + a1 / t + a2 / t + a3 / t + a4 / t + a5 / t)
    with ((a0 + a1 + a2 + a3 + a4 + a5) / t) by (field; exact Ht).
  rewrite <- E. now field.
Qed.

Lemma foot_factors_ideal (q : Quadruped xreal) (f : nat -> R) :
  (forall i, (i < 6)%nat ->
     leverage (vopp (gravity_direction_ q)) (legs_ q i) = XR (f i) /\
     f i <> 0) ->
  let s0 := f 0%nat + f 1%nat + f 2%nat + f 3%nat + f 4%nat + f 5%nat in
  let s1 := s0 / f 0%nat + s0 / f 1%nat + s0 / f 2%nat + s0 / f 3%nat
            + s0 / f 4%nat + s0 / f 5%nat in
  0 < s1 /\
  foot_factors q = map (fun i => XR (s0 / f i / s1)) (seq 0 6).
Proof.
  intros H s0 s1.
  destruct (H 0%nat ltac:(lia)) as [E0 N0].
  destruct (H 1%nat ltac:(lia)) as [E1 N1].
  destruct (H 2%nat ltac:(lia)) as [E2 N2].
  destruct (H 3%nat ltac:(lia)) as [E3 N3].
  destruct (H 4%nat ltac:(lia)) as [E4 N4].
  destruct (H 5%nat ltac:(lia)) as [E5 N5].
  pose proof (norm_XR_nonneg _ _ E0) as P0.
  pose proof (norm_XR_nonneg _ _ E1) as P1.
  pose proof (norm_XR_nonneg _ _ E2) as P2.
  pose proof (norm_XR_nonneg _ _ E3) as P3.
  pose proof (norm_XR_nonneg _ _ E4) as P4.
  pose proof (norm_XR_nonneg _ _ E5) as P5.
  assert (HS : 0 < s0) by (unfold s0; lra).
  assert (Q : forall x, 0 <= x -> x <> 0 -> 0 < s0 / x).
  { intros x Hx Hn. apply Rdiv_lt_0_compat; lra. }
  assert (HT : 0 < s1).
  { unfold s1. pose proof (Q _ P0 N0). pose proof (Q _ P1 N1).
    pose proof (Q _ P2 N2). pose proof (Q _ P3 N3).
    pose proof (Q _ P4 N4). pose proof (Q _ P5 N5). lra. }
  split; [exact HT|].
  unfold foot_factors. cbn [map seq].
  rewrite E0, E1, E2, E3, E4, E5.
  change (sum [XR (f 0%nat); XR (f 1%nat); XR (f 2%nat);
               XR (f 3%nat); XR (f 4%nat); XR (f 5%nat)]) with (XR s0).
  cbn [div xreal_scalar]. rewrite !(xdiv_XR s0) by assumption.
  change (sum [XR (s0 / f 0%nat); XR (s0 / f 1%nat); XR (s0 / f 2%nat);
               XR (s0 / f 3%nat); XR (s0 / f 4%nat); XR (s0 / f 5%nat)])
    with (XR s1).
  rewrite !xdiv_XR by lra.
  unfold blend_factors. cbn [map seq combine fst snd].
  rewrite blend_scaling. cbn [mul xreal_scalar xlift2].
  now rewrite !Rmult_1_r.
Qed.

End IdealForces.

(** C3 (as amended). In real arithmetic, for a unit gravity direction g and
    six stance points whose leverage factors are numbers other than 0:
    [computeFootForces] gives leg i the force [factor_i * weight_ * (-g)];
    the scaling [1 + 0.33 sin(pi * 1)] of the factors is by 1; the factors
    sum to 1; and the components of the six forces along the axis [-g] sum
    to the weight. *)
Theorem foot_forces_sum_to_weight
  (q : Quadruped xreal) (gx gy gz w : R) (f : nat -> R) :
  gravity_direction_ q = V3 (XR gx) (XR gy) (XR gz) ->
  (gx * gx + gy * gy + gz * gz = 1)%R ->
  weight_ q = XR w ->
  (forall i, (i < 6)%nat ->
     leverage (vopp (gravity_direction_ q)) (legs_ q i) = XR (f i) /\
     f i <> 0%R) ->
  let grav := vopp (gravity_direction_ q) in
  (of_Z 1 + lit 33 2 * sin (M_PI * of_Z 1))%dbl = XR 1 /\
  computeFootForces q
    = map (fun factor => smul (factor * weight_ q)%dbl grav) (foot_factors q) /\
  length (foot_factors q) = 6%nat /\
  sum (foot_factors q) = XR 1 /\
  sum (map (fun force => dot force grav) (computeFootForces q)) = XR w.
Proof.
  intros Hg Hunit Hw Hf grav.
  destruct (foot_factors_ideal q f Hf) as [HT Hfac].
  set (s0 := (f 0%nat + f 1%nat + f 2%nat + f 3%nat + f 4%nat + f 5%nat)%R)
    in *.
  set (s1 := (s0 / f 0%nat + s0 / f 1%nat + s0 / f 2%nat + s0 / f 3%nat
              + s0 / f 4%nat + s0 / f 5%nat)%R) in *.
  assert (Hs1 : s1 <> 0%R) by lra.
  split; [apply blend_scaling|].
  split; [reflexivity|].
  split; [rewrite Hfac; reflexivity|].
  split.
  - rewrite Hfac. simpl. f_equal. now apply normalised_sum.
  - unfold computeFootForces. rewrite Hfac. fold grav.
    unfold grav. rewrite Hg, Hw. simpl. f_equal.
    assert (Hsum : (s0 / f 0%nat / s1 + s0 / f 1%nat / s1 + s0 / f 2%nat / s1
                    + s0 / f 3%nat / s1 + s0 / f 4%nat / s1
                    + s0 / f 5%nat / s1 = 1)%R)
      by now apply normalised_sum.
    generalize dependent (s0 / f 0%nat / s1)%R.
    generalize dependent (s0 / f 1%nat / s1)%R.
    generalize dependent (s0 / f 2%nat / s1)%R.
    generalize dependent (s0 / f 3%nat / s1)%R.
    generalize dependent (s0 / f 4%nat / s1)%R.
    generalize dependent (s0 / f 5%nat / s1)%R.
    intros r5 r4 r3 r2 r1 r0 Hsum.
    transitivity ((r0 + r1 + r2 + r3 + r4 + r5) * w
                  * (gx * gx + gy * gy + gz * gz))%R; [ring|].
    rewrite Hsum, Hunit. ring.
Qed.

Lemma foot_forces_witness :
  sum (foot_factors (bench_tilted (D := xreal))) = XR 1 /\
  sum (map (fun force => dot force (vopp (gravity_direction_ bench_tilted)))
           (computeFootForces (bench_tilted (D := xreal)))) = XR 21.
Proof.
  destruct (foot_forces_sum_to_weight bench_tilted (6 / 10) 0 (- (8 / 10)) 21
              (fun i => real_of (leverage (vopp (gravity_direction_ bench_tilted))
                                          (legs_ bench_tilted i))))
    as (_ & _ & _ & H4 & H5).
  - unfold bench_tilted. cbn [gravity_direction_ with_gravity].
    autorewrite with xreal_lit. reflexivity.
  - lra.
  - reflexivity.
  - intros i Hi.
    do 6 (destruct i as [|i]; [
      unfold leverage, home_stance_xyz, in_base_frame, bench_tilted;
      cbn [bench legs_ bench_leg getBaseFrame bench_frame frame_z
           gravity_direction_ with_gravity];
      autorewrite with xreal_lit; simpl; autorewrite with xreal_lit; simpl;
      match goal with
      | |- context [Rlt_dec ?e 0] =>
          destruct (Rlt_dec e 0) as [Hneg|_]; [exfalso; nra|];
          split; [reflexivity | apply sqrt_nonzero; nra]
      end |]).
    lia.
  - split; [exact H4 | exact H5].
Defined.


(** C3 as stated fails. On doubles, for the tilted bench, whose gravity
    direction (0.6, 0, -0.8) has squared norm 1 and whose six leverage
    factors are numbers other than 0, the divisions and sums round: the
    factors sum to 1.0000000000000002 and the force components along the
    axis to 21.000000000000007, not to the weight 21. And for the zero
    vector, the gravity direction the feedback handler leaves when no module
    reports an orientation, the leverage factors are numbers other than 0
    again and every force is zero: the components sum to 0. *)
Lemma foot_forces_miss_weight :
  let along (q : Quadruped binary64) :=
    sum (map (fun force => dot force (vopp (gravity_direction_ q)))
             (computeFootForces q)) in
  let leverages (q : Quadruped binary64) :=
    map (fun i => leverage (vopp (gravity_direction_ q)) (legs_ q i))
        (seq 0 6) in
  let number (f : binary64) := negb (isnan f) && negb (PrimFloat.eqb f 0) in
  squaredNorm (gravity_direction_ (bench_tilted (D := binary64))) = of_Z 1 /\
  forallb number (leverages bench_tilted) = true /\
  weight_ (bench_tilted (D := binary64)) = of_Z 21 /\
  sum (foot_factors (bench_tilted (D := binary64)))
    = 0x1.0000000000001p+0%float /\
  sum (foot_factors (bench_tilted (D := binary64))) <> of_Z 1 /\
  along bench_tilted = 0x1.5000000000002p+4%float /\
  along bench_tilted <> weight_ (bench_tilted (D := binary64)) /\
  gravity_direction_ (bench_no_gravity (D := binary64))
    = gravity_direction_ (bench_unreported (D := binary64)) /\
  forallb number (leverages bench_no_gravity) = true /\
  along bench_no_gravity = of_Z 0 /\
  along bench_no_gravity <> weight_ (bench_no_gravity (D := binary64)).
Proof.
  intros along leverages number.
  repeat match goal with
         | |- _ /\ _ => split
         | |- _ <> _ => apply binary64_neq
         | |- _ => vm_compute; reflexivity
         end.
Qed.

(** * Further properties *)

(** ** Command frames *)

Section CommandFacts.
Context {D : Type} {SD : Scalar D}.

Lemma cmd_at_same (k : nat) (f : Command D -> Command D) (c : GroupCommand D) :
  cmd_at k f c k = f (c k).
Proof. unfold cmd_at. now rewrite Nat.eqb_refl. Qed.

Lemma cmd_at_other (k j : nat) (f : Command D -> Command D)
  (c : GroupCommand D) :
  j <> k -> cmd_at k f c j = c j.
Proof.
  intro H. unfold cmd_at. destruct (Nat.eqb_spec j k); [contradiction|].
  reflexivity.
Qed.

(** A write to the three joints of a leg leaves the other modules alone. *)
Lemma cmd_leg_other (set : D -> Command D -> Command D) (off j : nat)
  (v : Vector3d D) (c : GroupCommand D) :
  (j < off \/ off + 3 <= j)%nat -> cmd_leg set off v c j = c j.
Proof.
  intro H. unfold cmd_leg. rewrite !cmd_at_other by lia. reflexivity.
Qed.

Lemma cmd_leg_joint (set : D -> Command D -> Command D) (off j : nat)
  (v : Vector3d D) (c : GroupCommand D) :
  (j < 3)%nat -> cmd_leg set off v c (off + j) = set (coeff v j) (c (off + j)%nat).
Proof.
  intro H. unfold cmd_leg.
  destruct j as [|[|[|j]]]; [| | |lia]; simpl coeff.
  - rewrite !cmd_at_other by lia. now rewrite cmd_at_same.
  - rewrite cmd_at_other by lia. rewrite cmd_at_same.
    now rewrite cmd_at_other by lia.
  - now rewrite cmd_at_same, !cmd_at_other by lia.
Qed.

Lemma setCommand_other (index k : nat)
  (angles vels torques : option (Vector3d D)) (q : Quadruped D) :
  (k < 3 * index \/ 3 * index + 3 <= k)%nat ->
  cmd_ (setCommand index angles vels torques q) k = cmd_ q k.
Proof.
  intro Hk. unfold setCommand, num_joints_per_leg_.
  replace (index * 3)%nat with (3 * index)%nat by lia.
  cbn [cmd_ with_cmd].
  destruct angles, vels, torques; rewrite ?cmd_leg_other by lia; reflexivity.
Qed.

Lemma setCommand_joint (index j : nat)
  (angles vels torques : option (Vector3d D)) (q : Quadruped D) :
  (j < 3)%nat ->
  let old := cmd_ q (3 * index + j)%nat in
  let new := cmd_ (setCommand index angles vels torques q) (3 * index + j)%nat in
  position new = assigned angles j (position old) /\
  velocity new = assigned vels j (velocity old) /\
  effort new = assigned torques j (effort old).
Proof.
  intro Hj. unfold setCommand, num_joints_per_leg_.
  replace (index * 3)%nat with (3 * index)%nat by lia.
  cbn [cmd_ with_cmd].
  destruct angles, vels, torques; cbn [assigned];
    rewrite ?cmd_leg_joint by exact Hj; repeat split; reflexivity.
Qed.

(** A module of the leg is fully set after a call with no null pointer. *)
Lemma setCommand_fully_sets (index k : nat) (a v e : Vector3d D)
  (q : Quadruped D) :
  (3 * index <= k < 3 * index + 3)%nat ->
  fully_set (cmd_ (setCommand index (Some a) (Some v) (Some e) q) k).
Proof.
  intro Hk. replace k with (3 * index + (k - 3 * index))%nat by lia.
  destruct (setCommand_joint index (k - 3 * index) (Some a) (Some v) (Some e) q)
    as (Hp & Hv & He); [lia|].
  unfold fully_set. rewrite Hp, Hv, He. simpl. repeat split; discriminate.
Qed.

End CommandFacts.

(** X1. [setCommand(index, angles, vels, torques)] writes the three modules
    of leg [index] and no other; on those, a component whose pointer is null
    keeps its value and the others take the coefficient of their joint. It
    sends nothing and leaves the rest of the robot as it is. *)
Theorem setCommand_writes_one_leg
  (D : Type) (SD : Scalar D) (index : nat)
  (angles vels torques : option (Vector3d D)) (q : Quadruped D) :
  let q' := setCommand index angles vels torques q in
  (forall k, (k < 3 * index \/ 3 * index + 3 <= k)%nat ->
             cmd_ q' k = cmd_ q k) /\
  (forall j, (j < 3)%nat ->
     let old := cmd_ q (3 * index + j)%nat in
     let new := cmd_ q' (3 * index + j)%nat in
     position new = assigned angles j (position old) /\
     velocity new = assigned vels j (velocity old) /\
     effort new = assigned torques j (effort old)) /\
  sent q' = sent q /\ legs_ q' = legs_ q /\
  gravity_direction_ q' = gravity_direction_ q /\
  startup_trajectories q' = startup_trajectories q.
Proof.
  intro q'. split; [|split; [|repeat split]].
  - intros k Hk. now apply setCommand_other.
  - intros j Hj. now apply setCommand_joint.
Qed.

Lemma setCommand_witness :
  let q' := setCommand 1 (Some (V3 (lit 1 1) (lit 2 1) (lit 3 1))) None None
              (bench (D := binary64) vzero) in
  position (cmd_ q' 4) = Some (lit 2 1) /\ velocity (cmd_ q' 4) = None /\
  cmd_ q' 6 = cmd_ (bench (D := binary64) vzero) 6.
Proof.
  destruct (setCommand_writes_one_leg binary64 _ 1
              (Some (V3 (lit 1 1) (lit 2 1) (lit 3 1))) None None
              (bench vzero)) as (Hother & Hleg & _).
  destruct (Hleg 1%nat ltac:(lia)) as (Hp & Hv & _).
  split; [exact Hp|]. split; [exact Hv|].
  apply (Hother 6%nat). lia.
Defined.

(** ** Executing the stand-up *)

Section StandUpExecution.
Context {D : Type} {SD : Scalar D} {TD : Trig D}.
Variable getState : Trajectory D -> D -> Vector3d D * Vector3d D * Vector3d D.
Variable t : D.

Lemma standup_step_none (legs : list nat) :
  fold_left (standup_step getState t) legs None = None.
Proof. induction legs; simpl; auto. Qed.

Lemma execStandUpTraj_leg_some (q : Quadruped D) (i : nat)
  (traj : Trajectory D) :
  nth_error (startup_trajectories q) i = Some traj ->
  execStandUpTraj_leg getState t q i =
  Some (setCommand i
          (Some (fst (fst (getState traj t))))
          (Some (snd (fst (getState traj t))))
          (Some (computeCompensateTorques (legs_ q i)
                   (fst (fst (getState traj t)))
                   (snd (fst (getState traj t)))
                   (vmuls (getGravityDirection q) g_9_8f)
                   (ramped_foot_force q t i)))
          q).
Proof.
  intro H. unfold execStandUpTraj_leg. rewrite H.
  now destruct (getState traj t) as [[a v] x].
Qed.

Lemma execStandUpTraj_leg_none (q : Quadruped D) (i : nat) :
  nth_error (startup_trajectories q) i = None ->
  execStandUpTraj_leg getState t q i = None.
Proof. intro H. unfold execStandUpTraj_leg. now rewrite H. Qed.

(** The loop is defined when every leg it visits has a trajectory; it then
    changes [cmd_] only, leaves a module it does not visit as it was, and
    leaves every module it visits, or that was, fully set. *)
Lemma standup_loop_defined (legs : list nat) (q : Quadruped D) :
  (forall i, In i legs -> (i < length (startup_trajectories q))%nat) ->
  exists q',
    fold_left (standup_step getState t) legs (Some q) = Some q' /\
    startup_trajectories q' = startup_trajectories q /\
    legs_ q' = legs_ q /\
    gravity_direction_ q' = gravity_direction_ q /\
    sent q' = sent q /\
    (forall m, (forall i, In i legs -> (m < 3 * i \/ 3 * i + 3 <= m)%nat) ->
               cmd_ q' m = cmd_ q m) /\
    (forall m, fully_set (cmd_ q m) \/
               (exists i, In i legs /\ (3 * i <= m < 3 * i + 3)%nat) ->
               fully_set (cmd_ q' m)).
Proof.
  revert q. induction legs as [|i legs IH]; intros q Hlen.
  - exists q. simpl. split; [reflexivity|]. do 4 (split; [reflexivity|]).
    split; [reflexivity|].
    intros m [H|(i & Hi & _)]; [exact H | destruct Hi].
  - destruct (nth_error (startup_trajectories q) i) as [traj|] eqn:E.
    2:{ apply nth_error_None in E.
        specialize (Hlen i (or_introl eq_refl)). lia. }
    cbn [fold_left].
    change (standup_step getState t (Some q) i)
      with (execStandUpTraj_leg getState t q i).
    rewrite (execStandUpTraj_leg_some q i traj E).
    match goal with
    | |- context [Some (setCommand i ?a ?v ?e q)] =>
        set (q1 := setCommand i a v e q);
        assert (Hin : forall m, (3 * i <= m < 3 * i + 3)%nat ->
                                fully_set (cmd_ q1 m))
          by (intros m Hm; now apply setCommand_fully_sets);
        assert (Hout : forall m, (m < 3 * i \/ 3 * i + 3 <= m)%nat ->
                                 cmd_ q1 m = cmd_ q m)
          by (intros m Hm; now apply setCommand_other)
    end.
    destruct (IH q1) as (q' & Hf & H1 & H2 & H3 & H4 & H5 & H6).
    { intros j Hj. apply Hlen. now right. }
    exists q'. split; [exact Hf|].
    do 4 (split; [assumption|]). split.
    + intros m Hm. rewrite H5 by (intros j Hj; apply Hm; now right).
      apply Hout. apply Hm. now left.
    + intros m Hm. apply H6.
      destruct (le_lt_dec (3 * i) m) as [Hle|Hlt];
        [destruct (le_lt_dec (3 * i + 3) m) as [Hge|Hin']|].
      * destruct Hm as [Hm|(j & [<-|Hj] & Hr)]; [|lia|].
        -- left. rewrite Hout by lia. exact Hm.
        -- right. now exists j.
      * left. apply Hin. lia.
      * destruct Hm as [Hm|(j & [<-|Hj] & Hr)]; [|lia|].
        -- left. rewrite Hout by lia. exact Hm.
        -- right. now exists j.
Qed.

(** The loop is undefined as soon as a leg it visits has no trajectory. *)
Lemma standup_loop_undefined (legs : list nat) (q : Quadruped D) (i : nat) :
  In i legs -> (length (startup_trajectories q) <= i)%nat ->
  fold_left (standup_step getState t) legs (Some q) = None.
Proof.
  revert q. induction legs as [|j legs IH]; intros q Hin Hlen; [destruct Hin|].
  cbn [fold_left].
  change (standup_step getState t (Some q) j)
    with (execStandUpTraj_leg getState t q j).
  destruct (nth_error (startup_trajectories q) j) as [traj|] eqn:E.
  - rewrite (execStandUpTraj_leg_some q j traj E).
    destruct Hin as [->|Hin].
    + apply nth_error_None in Hlen. congruence.
    + apply IH; assumption.
  - rewrite (execStandUpTraj_leg_none q j E). apply standup_step_none.
Qed.

Lemma execStandUpTraj_unfold (q : Quadruped D) :
  execStandUpTraj_loop getState t q =
  fold_left (standup_step getState t) (seq 0 num_legs_) (Some q).
Proof. reflexivity. Qed.

(** The loop reads the trajectories of the legs it visits and no other: a
    robot with another list that agrees on them gets the same commands. *)
Lemma standup_loop_reads_visited (legs : list nat) (l : list (Trajectory D))
  (q : Quadruped D) :
  (forall i, In i legs ->
             nth_error l i = nth_error (startup_trajectories q) i) ->
  fold_left (standup_step getState t) legs (Some (with_startup l q)) =
  option_map (with_startup l)
    (fold_left (standup_step getState t) legs (Some q)).
Proof.
  revert q. induction legs as [|i legs IH]; intros q Hl; [reflexivity|].
  cbn [fold_left].
  change (standup_step getState t (Some q) i)
    with (execStandUpTraj_leg getState t q i).
  change (standup_step getState t (Some (with_startup l q)) i)
    with (execStandUpTraj_leg getState t (with_startup l q) i).
  pose proof (Hl i (or_introl eq_refl)) as Hi.
  destruct (nth_error (startup_trajectories q) i) as [traj|] eqn:E.
  - rewrite (execStandUpTraj_leg_some q i traj E).
    rewrite (execStandUpTraj_leg_some (with_startup l q) i traj Hi).
    apply (IH (setCommand i _ _ _ q)).
    intros j Hj. apply Hl. now right.
  - rewrite (execStandUpTraj_leg_none q i E).
    rewrite (execStandUpTraj_leg_none (with_startup l q) i Hi).
    now rewrite !standup_step_none.
Qed.

End StandUpExecution.

(** X2. The loop of [execStandUpTraj] runs to its end exactly when
    [startup_trajectories] holds at least six trajectories: it indexes the
    vector by the leg. At its end each of the 18 modules has its position,
    its velocity and its effort set; the modules past the 18 are as they
    were, and the loop has sent nothing and touched neither the
    trajectories nor the legs nor the gravity direction. *)
Theorem execStandUpTraj_commands_every_module
  (D : Type) (SD : Scalar D) (TD : Trig D)
  (getState : Trajectory D -> D -> Vector3d D * Vector3d D * Vector3d D)
  (t : D) (q : Quadruped D) :
  (execStandUpTraj_loop getState t q = None <->
   (length (startup_trajectories q) < 6)%nat) /\
  (forall q', execStandUpTraj_loop getState t q = Some q' ->
     (forall m, (m < 18)%nat -> fully_set (cmd_ q' m)) /\
     (forall m, (18 <= m)%nat -> cmd_ q' m = cmd_ q m) /\
     sent q' = sent q /\
     startup_trajectories q' = startup_trajectories q /\
     legs_ q' = legs_ q /\
     gravity_direction_ q' = gravity_direction_ q).
Proof.
  rewrite execStandUpTraj_unfold.
  destruct (le_lt_dec 6 (length (startup_trajectories q))) as [Hge|Hlt].
  - destruct (standup_loop_defined getState t (seq 0 num_legs_) q)
      as (q1 & Hf & H1 & H2 & H3 & H4 & H5 & H6).
    { intros i Hi. apply in_seq in Hi. unfold num_legs_ in Hi. lia. }
    rewrite Hf. split.
    + split; [discriminate | lia].
    + intros q' Hq. injection Hq as <-.
      split; [|split; [|auto]].
      * intros m Hm. apply H6. right. exists (m / 3)%nat. split.
        -- apply in_seq. unfold num_legs_.
           assert (m / 3 < 6)%nat by (apply Nat.Div0.div_lt_upper_bound; lia).
           lia.
        -- pose proof (Nat.div_mod_eq m 3).
           pose proof (Nat.mod_upper_bound m 3 ltac:(lia)). lia.
      * intros m Hm. apply H5. intros i Hi. apply in_seq in Hi.
        unfold num_legs_ in Hi. lia.
  - rewrite (standup_loop_undefined getState t (seq 0 num_legs_) q 5).
    + split; [tauto | discriminate].
    + apply in_seq. unfold num_legs_. lia.
    + lia.
Qed.

Lemma execStandUpTraj_witness :
  exists q',
    execStandUpTraj_loop hold_first (XR 0) (bench_planned (D := xreal))
    = Some q' /\
    fully_set (cmd_ q' 17) /\
    execStandUpTraj_loop hold_first (XR 0) (bench (D := xreal) vzero) = None.
Proof.
  destruct (execStandUpTraj_commands_every_module xreal _ _ hold_first (XR 0)
              bench_planned) as [Hdef Hframe].
  destruct (execStandUpTraj_loop hold_first (XR 0) bench_planned)
    as [q'|] eqn:E.
  - exists q'. split; [reflexivity|].
    destruct (Hframe q' eq_refl) as (Hall & _).
    split; [apply Hall; lia|].
    apply (execStandUpTraj_commands_every_module xreal _ _ hold_first (XR 0)
             (bench vzero)).
    cbn [bench startup_trajectories length]. lia.
  - exfalso. destruct Hdef as [Hd _]. pose proof (Hd eq_refl) as Hl.
    unfold bench_planned in Hl.
    rewrite planStandUpTraj_appends, length_app, length_map, length_seq in Hl.
    unfold num_legs_ in Hl. lia.
Defined.

Lemma planStandUpTraj_only_plans (D : Type) (SD : Scalar D) (d : D)
  (q : Quadruped D) :
  planStandUpTraj_loop d q
  = with_startup (startup_trajectories (planStandUpTraj_loop d q)) q.
Proof.
  unfold planStandUpTraj_loop. generalize (seq 0 num_legs_). intro legs.
  revert q. induction legs as [|i legs IH]; intro q.
  - destruct q; reflexivity.
  - cbn [fold_left]. rewrite IH at 1. reflexivity.
Qed.

Lemma exec_loop_ignores_the_rest (D : Type) (SD : Scalar D) (TD : Trig D)
  (getState : Trajectory D -> D -> Vector3d D * Vector3d D * Vector3d D)
  (t : D) (q : Quadruped D) (extra : list (Trajectory D)) :
  (6 <= length (startup_trajectories q))%nat ->
  execStandUpTraj_loop getState t
    (with_startup (startup_trajectories q ++ extra) q)
  = option_map (with_startup (startup_trajectories q ++ extra))
      (execStandUpTraj_loop getState t q).
Proof.
  intro Hlen. rewrite !execStandUpTraj_unfold.
  apply standup_loop_reads_visited.
  intros i Hi. apply in_seq in Hi. unfold num_legs_ in Hi.
  apply nth_error_app1. lia.
Qed.

(** X3. The loop of [execStandUpTraj] reads the entries 0 to 5 of
    [startup_trajectories] and no other, and the loop of [planStandUpTraj]
    pushes its six trajectories behind those stored and removes none. So
    once six trajectories are stored, the loop of [execStandUpTraj] writes
    the same commands whatever is stored behind them; after a further
    planning loop, of whatever duration, it writes what it wrote before,
    and the new plan is never read. *)
Theorem second_stand_up_plan_is_ignored
  (D : Type) (SD : Scalar D) (TD : Trig D)
  (getState : Trajectory D -> D -> Vector3d D * Vector3d D * Vector3d D)
  (d t : D) (q : Quadruped D) (extra : list (Trajectory D)) :
  (6 <= length (startup_trajectories q))%nat ->
  let executed := option_map (@cmd_ D) (execStandUpTraj_loop getState t q) in
  option_map (@cmd_ D)
    (execStandUpTraj_loop getState t
       (with_startup (startup_trajectories q ++ extra) q)) = executed /\
  (exists new,
     length new = 6%nat /\
     planStandUpTraj_loop d q
     = with_startup (startup_trajectories q ++ new) q) /\
  option_map (@cmd_ D)
    (execStandUpTraj_loop getState t (planStandUpTraj_loop d q)) = executed.
Proof.
  intros Hlen executed. unfold executed.
  assert (Hplan : planStandUpTraj_loop d q
                  = with_startup
                      (startup_trajectories q
                       ++ map (standup_trajectory q d) (seq 0 num_legs_)) q).
  { rewrite (planStandUpTraj_only_plans D SD d q) at 1.
    now rewrite planStandUpTraj_appends. }
  split; [|split].
  - rewrite (exec_loop_ignores_the_rest D SD TD getState t q extra Hlen).
    now destruct (execStandUpTraj_loop getState t q).
  - exists (map (standup_trajectory q d) (seq 0 num_legs_)).
    split; [now rewrite length_map, length_seq | exact Hplan].
  - rewrite Hplan.
    rewrite (exec_loop_ignores_the_rest D SD TD getState t q _ Hlen).
    now destruct (execStandUpTraj_loop getState t q).
Qed.

Lemma second_stand_up_plan_witness :
  option_map (@cmd_ xreal)
    (execStandUpTraj_loop hold_first (XR 0)
       (planStandUpTraj_loop (XR 1) (bench_planned (D := xreal))))
  = option_map (@cmd_ xreal)
      (execStandUpTraj_loop hold_first (XR 0) (bench_planned (D := xreal))).
Proof.
  apply (second_stand_up_plan_is_ignored xreal _ _ hold_first (XR 1) (XR 0)
           bench_planned []).
  unfold bench_planned.
  rewrite planStandUpTraj_appends, length_app, length_map, length_seq.
  unfold num_legs_. lia.
Defined.

(** ** Loops that write one leg per step *)

Section LegWriters.
Context {D : Type} {SD : Scalar D}.

(** A step [f i] that writes the modules of leg [i] only, each from its own
    previous command. *)
Variable f : GroupCommand D -> nat -> GroupCommand D.
Hypothesis f_other :
  forall c i k, (k < 3 * i \/ 3 * i + 3 <= k)%nat -> f c i k = c k.
Hypothesis f_local :
  forall c c' i k, c k = c' k -> f c i k = f c' i k.

Lemma fold_writer_other (legs : list nat) (c : GroupCommand D) (k : nat) :
  (forall i, In i legs -> (k < 3 * i \/ 3 * i + 3 <= k)%nat) ->
  fold_left f legs c k = c k.
Proof.
  revert c. induction legs as [|a legs IH]; intros c H; [reflexivity|].
  cbn [fold_left]. rewrite IH.
  - apply f_other. apply H. now left.
  - intros i Hi. apply H. now right.
Qed.

Lemma fold_writer_leg (legs : list nat) (c : GroupCommand D) (i k : nat) :
  NoDup legs -> In i legs -> (3 * i <= k < 3 * i + 3)%nat ->
  fold_left f legs c k = f c i k.
Proof.
  revert c. induction legs as [|a legs IH]; intros c Hnd Hin Hk; [easy|].
  cbn [fold_left]. inversion Hnd as [|? ? Ha Hnd']; subst.
  destruct (Nat.eq_dec a i) as [->|Hne].
  - apply fold_writer_other. intros i' Hi'.
    assert (i' <> i) by (intros ->; contradiction). lia.
  - destruct Hin as [->|Hin]; [contradiction|].
    rewrite IH by assumption. apply f_local. apply f_other. lia.
Qed.

End LegWriters.

Section PositionLoops.
Context {D : Type} {SD : Scalar D}.

Lemma position_step_other (g : nat -> Vector3d D) (c : GroupCommand D)
  (i k : nat) :
  (k < 3 * i \/ 3 * i + 3 <= k)%nat ->
  cmd_leg set_position (i * num_joints_per_leg_) (g i) c k = c k.
Proof.
  intro H. apply cmd_leg_other. unfold num_joints_per_leg_. lia.
Qed.

Lemma cmd_leg_local (set : D -> Command D -> Command D) (off : nat)
  (v : Vector3d D) (c c' : GroupCommand D) (k : nat) :
  c k = c' k -> cmd_leg set off v c k = cmd_leg set off v c' k.
Proof.
  intro H. unfold cmd_leg, cmd_at.
  repeat match goal with |- context [Nat.eqb ?a ?b] => destruct (Nat.eqb a b) end;
    now rewrite H.
Qed.

(** A loop that writes each leg's positions from a goal of its own. *)
Lemma position_loop (g : nat -> Vector3d D) (n : nat) (c : GroupCommand D) :
  let c' := fold_left
              (fun c i => cmd_leg set_position (i * num_joints_per_leg_) (g i) c)
              (seq 0 n) c in
  (forall i j, (i < n)%nat -> (j < 3)%nat ->
     c' (3 * i + j)%nat = set_position (coeff (g i) j) (c (3 * i + j)%nat)) /\
  (forall k, (3 * n <= k)%nat -> c' k = c k).
Proof.
  intro c'. split.
  - intros i j Hi Hj. unfold c'.
    rewrite (fold_writer_leg
               (fun c i => cmd_leg set_position (i * num_joints_per_leg_) (g i) c))
      with (i := i).
    + unfold num_joints_per_leg_.
      replace (i * 3)%nat with (3 * i)%nat by lia.
      now apply cmd_leg_joint.
    + intros. now apply position_step_other.
    + intros. now apply cmd_leg_local.
    + apply seq_NoDup.
    + apply in_seq. lia.
    + lia.
  - intros k Hk. unfold c'.
    apply (fold_writer_other
             (fun c i => cmd_leg set_position (i * num_joints_per_leg_) (g i) c)).
    + intros. now apply position_step_other.
    + intros i Hi. apply in_seq in Hi. lia.
Qed.

Lemma spread_command_fst (q : Quadruped D) (legs : list nat)
  (st : GroupCommand D * Vector3d D) :
  fst (fold_left (spread_command q) legs st) =
  fold_left
    (fun c i => cmd_leg set_position (i * num_joints_per_leg_)
                  (computeIK (legs_ q i) (spread_stance_xyz (legs_ q i))) c)
    legs (fst st).
Proof.
  revert st. induction legs as [|a legs IH]; intro st; [reflexivity|].
  cbn [fold_left]. now rewrite IH.
Qed.

Lemma push_command_fst (q : Quadruped D) (legs : list nat)
  (st : GroupCommand D * Vector3d D) :
  fst (fold_left (push_command q) legs st) =
  fold_left
    (fun c i => cmd_leg set_position (i * num_joints_per_leg_)
                  (computeIK (legs_ q i) (home_stance_xyz (legs_ q i))) c)
    legs (fst st).
Proof.
  revert st. induction legs as [|a legs IH]; intro st; [reflexivity|].
  cbn [fold_left]. now rewrite IH.
Qed.

End PositionLoops.

(** X4. [spreadAllLegs] commands every leg to the IK solution of its own
    spread point, [base_frame * (0.55, 0, 0.05)]: joint [j] of leg [i] gets
    coefficient [j] of that solution as its position. No velocity and no
    effort is written, the modules past the 18 are not touched, one frame,
    the commands just written, is sent, and [is_exec_traj] is raised. *)
Theorem spreadAllLegs_commands_each_leg
  (D : Type) (SD : Scalar D) (q : Quadruped D) :
  let q' := fst (spreadAllLegs q) in
  (forall i j, (i < 6)%nat -> (j < 3)%nat ->
     let goal := computeIK (legs_ q i) (spread_stance_xyz (legs_ q i)) in
     position (cmd_ q' (3 * i + j)%nat) = Some (coeff goal j) /\
     velocity (cmd_ q' (3 * i + j)%nat) = velocity (cmd_ q (3 * i + j)%nat) /\
     effort (cmd_ q' (3 * i + j)%nat) = effort (cmd_ q (3 * i + j)%nat)) /\
  (forall k, (18 <= k)%nat -> cmd_ q' k = cmd_ q k) /\
  sent q' = sent q ++ [cmd_ q'] /\
  is_exec_traj q' = true /\
  legs_ q' = legs_ q /\
  gravity_direction_ q' = gravity_direction_ q.
Proof.
  intro q'.
  assert (E : cmd_ q' =
              fold_left
                (fun c i => cmd_leg set_position (i * num_joints_per_leg_)
                   (computeIK (legs_ q i) (spread_stance_xyz (legs_ q i))) c)
                (seq 0 6) (cmd_ q)).
  { unfold q', spreadAllLegs. cbn [fst cmd_ sendCommand with_cmd].
    now rewrite spread_command_fst. }
  destruct (position_loop
              (fun i => computeIK (legs_ q i) (spread_stance_xyz (legs_ q i)))
              6 (cmd_ q)) as [Hleg Hrest].
  split; [|split; [|repeat split]].
  - intros i j Hi Hj goal. rewrite E, (Hleg i j Hi Hj). repeat split.
  - intros k Hk. rewrite E. apply Hrest. lia.
Qed.

(** X5. [pushAllLegs] commands every leg to the IK solution of its own home
    stance point, [base_frame * (0.45, 0, -0.28)], positions only, sends
    that one frame, and returns true wherever the legs are: it makes no
    test of the joint angles. *)
Theorem pushAllLegs_commands_each_leg
  (D : Type) (SD : Scalar D) (q : Quadruped D) :
  let q' := fst (pushAllLegs q) in
  snd (pushAllLegs q) = true /\
  (forall i j, (i < 6)%nat -> (j < 3)%nat ->
     let goal := computeIK (legs_ q i) (home_stance_xyz (legs_ q i)) in
     position (cmd_ q' (3 * i + j)%nat) = Some (coeff goal j) /\
     velocity (cmd_ q' (3 * i + j)%nat) = velocity (cmd_ q (3 * i + j)%nat) /\
     effort (cmd_ q' (3 * i + j)%nat) = effort (cmd_ q (3 * i + j)%nat)) /\
  (forall k, (18 <= k)%nat -> cmd_ q' k = cmd_ q k) /\
  sent q' = sent q ++ [cmd_ q'] /\
  is_exec_traj q' = true /\
  legs_ q' = legs_ q /\
  gravity_direction_ q' = gravity_direction_ q.
Proof.
  intro q'.
  assert (E : cmd_ q' =
              fold_left
                (fun c i => cmd_leg set_position (i * num_joints_per_leg_)
                   (computeIK (legs_ q i) (home_stance_xyz (legs_ q i))) c)
                (seq 0 6) (cmd_ q)).
  { unfold q', pushAllLegs. cbn [fst cmd_ sendCommand with_cmd].
    now rewrite push_command_fst. }
  destruct (position_loop
              (fun i => computeIK (legs_ q i) (home_stance_xyz (legs_ q i)))
              6 (cmd_ q)) as [Hleg Hrest].
  split; [reflexivity|]. split; [|split; [|repeat split]].
  - intros i j Hi Hj goal. rewrite E, (Hleg i j Hi Hj). repeat split.
  - intros k Hk. rewrite E. apply Hrest. lia.
Qed.

(** ** The components a write leaves alone *)

Section Components.
Context {D : Type} {SD : Scalar D}.

Lemma cmd_leg_keeps {A} (proj : Command D -> A)
  (set : D -> Command D -> Command D) (off : nat) (v : Vector3d D)
  (c : GroupCommand D) (k : nat) :
  (forall x c0, proj (set x c0) = proj c0) ->
  proj (cmd_leg set off v c k) = proj (c k).
Proof.
  intro H. unfold cmd_leg, cmd_at.
  repeat match goal with |- context [Nat.eqb ?a ?b] => destruct (Nat.eqb a b) end;
    rewrite ?H; reflexivity.
Qed.

Lemma velocity_after_positions (off : nat) (v : Vector3d D)
  (c : GroupCommand D) (k : nat) :
  velocity (cmd_leg set_position off v c k) = velocity (c k).
Proof. now apply cmd_leg_keeps. Qed.

Lemma velocity_after_efforts (off : nat) (v : Vector3d D)
  (c : GroupCommand D) (k : nat) :
  velocity (cmd_leg set_effort off v c k) = velocity (c k).
Proof. now apply cmd_leg_keeps. Qed.

Lemma effort_after_positions (off : nat) (v : Vector3d D)
  (c : GroupCommand D) (k : nat) :
  effort (cmd_leg set_position off v c k) = effort (c k).
Proof. now apply cmd_leg_keeps. Qed.

Lemma position_after_efforts (off : nat) (v : Vector3d D)
  (c : GroupCommand D) (k : nat) :
  position (cmd_leg set_effort off v c k) = position (c k).
Proof. now apply cmd_leg_keeps. Qed.

Lemma position_of_leg (off j : nat) (v : Vector3d D) (c : GroupCommand D) :
  (j < 3)%nat ->
  position (cmd_leg set_position off v c (off + j)%nat) = Some (coeff v j).
Proof. intro H. now rewrite cmd_leg_joint. Qed.

Lemma effort_of_leg (off j : nat) (v : Vector3d D) (c : GroupCommand D) :
  (j < 3)%nat ->
  effort (cmd_leg set_effort off v c (off + j)%nat) = Some (coeff v j).
Proof. intro H. now rewrite cmd_leg_joint. Qed.

Lemma prepareQuadMode_cmd (q : Quadruped D) :
  cmd_ (fst (prepareQuadMode q)) =
  hold_leg q (hold_leg q
    (quad_mode_leg q (quad_mode_leg q (quad_mode_leg q (quad_mode_leg q
       (cmd_ q) 0) 1) 4) 5) 2) 3.
Proof. reflexivity. Qed.

End Components.

(** X6. [prepareQuadMode]: the first loop visits the legs 0, 1, 4 and 5, in
    this order, and no other. Each of them is commanded to the IK solution
    of its home stance point, with the torques that hold that pose at rest
    under a quarter of the weight as efforts. Legs 2 and 3 are commanded to
    the held-up pose and their efforts are not written. No velocity is
    written, the modules past the 18 are not touched, one frame is sent and
    the result is true. *)
Theorem prepareQuadMode_commands
  (D : Type) (SD : Scalar D) (q : Quadruped D) :
  let q' := fst (prepareQuadMode q) in
  locomote_legs = [0; 1; 4; 5]%nat /\
  (forall i j, In i locomote_legs -> (j < 3)%nat ->
     let goal := computeIK (legs_ q i) (home_stance_xyz (legs_ q i)) in
     let torques :=
       computeCompensateTorques (legs_ q i) goal
         (V3 (of_Z 0) (of_Z 0) (of_Z 0))
         (vmuls (gravity_direction_ q) g_9_8f) (quad_foot_force q) in
     position (cmd_ q' (3 * i + j)%nat) = Some (coeff goal j) /\
     effort (cmd_ q' (3 * i + j)%nat) = Some (coeff torques j)) /\
  (forall i j, i = 2%nat \/ i = 3%nat -> (j < 3)%nat ->
     let goal := computeIK (legs_ q i) (hold_stance_xyz (legs_ q i)) in
     position (cmd_ q' (3 * i + j)%nat) = Some (coeff goal j) /\
     effort (cmd_ q' (3 * i + j)%nat) = effort (cmd_ q (3 * i + j)%nat)) /\
  (forall k, velocity (cmd_ q' k) = velocity (cmd_ q k)) /\
  (forall k, (18 <= k)%nat -> cmd_ q' k = cmd_ q k) /\
  sent q' = sent q ++ [cmd_ q'] /\
  snd (prepareQuadMode q) = true.
Proof.
  intro q'. unfold q'. split; [reflexivity|].
  split; [|split; [|split; [|split; [|split; reflexivity]]]].
  - intros i j Hi Hj. cbv zeta.
    rewrite prepareQuadMode_cmd. unfold hold_leg, quad_mode_leg.
    unfold num_joints_per_leg_, getGravityDirection.
    cbv [locomote_legs loop_indices num_legs_ quad_mode_next Nat.ltb Nat.leb
         Nat.eqb Nat.add] in Hi.
    destruct Hi as [<-|[<-|[<-|[<-|[]]]]].
    all: change (3 * 0)%nat with (0 * 3)%nat;
         change (3 * 1)%nat with (1 * 3)%nat;
         change (3 * 4)%nat with (4 * 3)%nat;
         change (3 * 5)%nat with (5 * 3)%nat.
    all: split.
    all: repeat first
           [ rewrite position_of_leg by exact Hj
           | rewrite effort_of_leg by exact Hj
           | rewrite position_after_efforts
           | rewrite effort_after_positions
           | rewrite cmd_leg_other by (simpl; lia) ].
    all: reflexivity.
  - intros i j Hi Hj. cbv zeta.
    rewrite prepareQuadMode_cmd. unfold hold_leg, quad_mode_leg.
    unfold num_joints_per_leg_.
    destruct Hi as [->| ->].
    all: change (3 * 2)%nat with (2 * 3)%nat;
         change (3 * 3)%nat with (3 * 3)%nat.
    all: split.
    all: repeat first
           [ rewrite position_of_leg by exact Hj
           | rewrite effort_after_positions
           | rewrite cmd_leg_other by (simpl; lia) ].
    all: reflexivity.
  - intro k. rewrite prepareQuadMode_cmd. unfold hold_leg, quad_mode_leg.
    repeat first [ rewrite velocity_after_positions
                 | rewrite velocity_after_efforts ].
    reflexivity.
  - intros k Hk. rewrite prepareQuadMode_cmd. unfold hold_leg, quad_mode_leg.
    unfold num_joints_per_leg_.
    rewrite !cmd_leg_other by (simpl; lia). reflexivity.
Qed.

(** X7. In real arithmetic: the foot forces [prepareQuadMode] compensates
    on the legs its first loop visits add up to the weight, against
    gravity, a quarter on each leg whatever the stance. *)
Theorem prepareQuadMode_forces_carry_weight
  (q : Quadruped xreal) (a b c w : R) :
  gravity_direction_ q = V3 (XR a) (XR b) (XR c) ->
  weight_ q = XR w ->
  fold_left vadd (map (fun _ : nat => quad_foot_force q) locomote_legs) vzero
  = V3 (XR (w * - a)) (XR (w * - b)) (XR (w * - c)).
Proof.
  intros Hg Hw. unfold quad_foot_force. rewrite Hg, Hw.
  autorewrite with xreal_lit.
  cbv [locomote_legs loop_indices num_legs_ quad_mode_next Nat.ltb Nat.leb
       Nat.eqb Nat.add map fold_left vadd vmuls smul vopp vzero vx vy vz
       add mul opp of_Z xreal_scalar xlift2 xopp].
  f_equal; f_equal; field.
Qed.

Lemma prepareQuadMode_forces_witness :
  fold_left vadd
    (map (fun _ : nat => quad_foot_force (bench (D := xreal) vzero))
         locomote_legs) vzero
  = V3 (XR (21 * - 0)) (XR (21 * - 0)) (XR (21 * - (-1))).
Proof.
  apply (prepareQuadMode_forces_carry_weight (bench vzero) 0 0 (-1) 21);
    reflexivity.
Defined.

(** X8. [runTest] is defined exactly when two swing and two stance
    trajectories are stored. It then writes positions and efforts only:
    no velocity is commanded, although the velocity of the trajectory
    enters the torques. The efforts of the k-th leg of the swing pair are
    the compensating torques at the state of the k-th swing trajectory
    under the swing foot force, those of the stance pair likewise under
    the stance foot force; the efforts of legs 2 and 3 and the modules past
    the 18 are left as they were. One frame is sent, and [total_time] has
    no effect. *)
Theorem runTest_efforts_and_frame
  (D : Type) (SD : Scalar D)
  (getState : Trajectory D -> D -> Vector3d D * Vector3d D * Vector3d D)
  (mode : SwingMode) (curr_time total_time : D) (q : Quadruped D) :
  (runTest getState mode curr_time total_time q = None <->
   (length (swing_trajectories q) < 2 \/
    length (stance_trajectories q) < 2)%nat) /\
  (forall other_time,
     runTest getState mode curr_time other_time q
     = runTest getState mode curr_time total_time q) /\
  (forall q', runTest getState mode curr_time total_time q = Some q' ->
     (forall k, velocity (cmd_ q' k) = velocity (cmd_ q k)) /\
     (forall k leg traj j,
        nth_error (swing_vleg mode) k = Some leg ->
        nth_error (swing_trajectories q) k = Some traj ->
        (j < 3)%nat ->
        effort (cmd_ q' (3 * leg + j)%nat)
        = Some (coeff (computeCompensateTorques (legs_ q leg)
                         (fst (fst (getState traj curr_time)))
                         (snd (fst (getState traj curr_time)))
                         (vmuls (gravity_direction_ q) g_9_8f)
                         (swing_foot_force q)) j)) /\
     (forall k leg traj j,
        nth_error (stance_vleg mode) k = Some leg ->
        nth_error (stance_trajectories q) k = Some traj ->
        (j < 3)%nat ->
        effort (cmd_ q' (3 * leg + j)%nat)
        = Some (coeff (computeCompensateTorques (legs_ q leg)
                         (fst (fst (getState traj curr_time)))
                         (snd (fst (getState traj curr_time)))
                         (vmuls (gravity_direction_ q) g_9_8f)
                         (stance_foot_force q)) j)) /\
     (forall k, (6 <= k < 12)%nat -> effort (cmd_ q' k) = effort (cmd_ q k)) /\
     (forall k, (18 <= k)%nat -> cmd_ q' k = cmd_ q k) /\
     sent q' = sent q ++ [cmd_ q']).
Proof.
  split; [|split; [reflexivity|]].
  - unfold runTest.
    destruct (swing_trajectories q) as [|s0 [|s1 sw]] eqn:Esw;
      destruct (stance_trajectories q) as [|st0 [|st1 stn]] eqn:Est;
      destruct mode.
    all: cbn [fold_left enumerate swing_vleg stance_vleg combine seq length].
    all: repeat (rewrite ?follow_leg_some, ?follow_leg_none;
                 cbn [nth_error]).
    all: cbn [length].
    all: split; intro H; first [discriminate H | reflexivity | lia].
  - intros q' H. unfold runTest in H.
    destruct (swing_trajectories q) as [|s0 [|s1 sw]] eqn:Esw;
      destruct (stance_trajectories q) as [|st0 [|st1 stn]] eqn:Est;
      destruct mode.
    all: cbn [fold_left enumerate swing_vleg stance_vleg combine seq length]
           in H.
    all: repeat (rewrite ?follow_leg_some, ?follow_leg_none in H;
                 cbn [nth_error] in H).
    all: try discriminate.
    all: injection H as <-.
    all: cbn [cmd_ sent sendCommand with_cmd].
    all: unfold hold_leg, num_joints_per_leg_, getGravityDirection.
    all: split; [intro k;
                 repeat first [ rewrite velocity_after_positions
                              | rewrite velocity_after_efforts ];
                 reflexivity|].
    all: split; [intros [|[|[|k]]] leg traj j Hl Ht Hj; simpl in Hl, Ht;
                 try discriminate;
                 injection Hl as <-; injection Ht as <-;
                 change (3 * 0)%nat with (0 * 3)%nat;
                 change (3 * 1)%nat with (1 * 3)%nat;
                 change (3 * 4)%nat with (4 * 3)%nat;
                 change (3 * 5)%nat with (5 * 3)%nat;
                 repeat first
                   [ rewrite effort_of_leg by exact Hj
                   | rewrite effort_after_positions
                   | rewrite cmd_leg_other by (simpl; lia) ];
                 reflexivity|].
    all: split; [intros [|[|[|k]]] leg traj j Hl Ht Hj; simpl in Hl, Ht;
                 try discriminate;
                 injection Hl as <-; injection Ht as <-;
                 change (3 * 0)%nat with (0 * 3)%nat;
                 change (3 * 1)%nat with (1 * 3)%nat;
                 change (3 * 4)%nat with (4 * 3)%nat;
                 change (3 * 5)%nat with (5 * 3)%nat;
                 repeat first
                   [ rewrite effort_of_leg by exact Hj
                   | rewrite effort_after_positions
                   | rewrite cmd_leg_other by (simpl; lia) ];
                 reflexivity|].
    all: split; [intros k Hk;
                 repeat first
                   [ rewrite effort_after_positions
                   | rewrite cmd_leg_other by (simpl; lia) ];
                 reflexivity|].
    all: split; [|reflexivity].
    all: intros k Hk; rewrite !cmd_leg_other by (simpl; lia); reflexivity.
Qed.

(** X9. After [prepareTrajectories], [runTest] is defined for either mode
    and any time. The trajectories are stored by slot, not by leg: the k-th
    leg of the swing pair of [runTest]'s mode follows the swing trajectory
    planned for the k-th leg of the swing pair of the prepared mode, and so
    for the stance pair, so under the other mode each leg follows a
    trajectory planned from another leg's kinematics. A new call of
    [prepareTrajectories] replaces both pairs of trajectories; nothing of
    an earlier call remains. *)
Theorem prepared_gait_runs_by_slot
  (D : Type) (SD : Scalar D)
  (getState : Trajectory D -> D -> Vector3d D * Vector3d D * Vector3d D)
  (prepared mode : SwingMode) (leg_swing_time curr_time total_time : D)
  (q : Quadruped D) :
  let p := prepareTrajectories prepared leg_swing_time q in
  (exists q',
     runTest getState mode curr_time total_time p = Some q' /\
     (forall k leg planned,
        nth_error (swing_vleg mode) k = Some leg ->
        nth_error (swing_vleg prepared) k = Some planned ->
        leg_positions (cmd_ q') leg
        = commanded
            (fst (fst (getState (swing_trajectory q leg_swing_time planned)
                                curr_time)))) /\
     (forall k leg planned,
        nth_error (stance_vleg mode) k = Some leg ->
        nth_error (stance_vleg prepared) k = Some planned ->
        leg_positions (cmd_ q') leg
        = commanded
            (fst (fst (getState (stance_trajectory q leg_swing_time planned)
                                curr_time))))) /\
  (forall earlier earlier_time,
     let p2 := prepareTrajectories prepared leg_swing_time
                 (prepareTrajectories earlier earlier_time q) in
     swing_trajectories p2 = swing_trajectories p /\
     stance_trajectories p2 = stance_trajectories p /\
     length (swing_trajectories p2) = 2%nat /\
     length (stance_trajectories p2) = 2%nat).
Proof.
  intro p. split.
  - unfold p, runTest, prepareTrajectories.
    cbn [swing_trajectories stance_trajectories with_swing with_stance].
    destruct prepared, mode.
    all: cbn [fold_left enumerate swing_vleg stance_vleg combine seq length
              map].
    all: repeat (rewrite ?follow_leg_some, ?follow_leg_none;
                 cbn [nth_error]).
    all: eexists; split; [reflexivity|].
    all: split; intros [|[|[|k]]] leg planned Hl Hp; simpl in Hl, Hp;
           try discriminate;
           injection Hl as <-; injection Hp as <-; reflexivity.
  - intros earlier earlier_time p2. unfold p2, p.
    destruct prepared; repeat split.
Qed.

(** ** The loop of dynamicWalk.cpp from its start *)

Section CallLogs.
Context {D : Type}.

Lemma count_app {A} (f : A -> bool) (l1 l2 : list A) :
  count f (l1 ++ l2) = (count f l1 + count f l2)%nat.
Proof. unfold count. now rewrite filter_app, length_app. Qed.

Lemma no_gait_app (l1 l2 : list (Call D)) :
  no_gait (l1 ++ l2) = no_gait l1 && no_gait l2.
Proof. apply forallb_app. Qed.

Lemma follows_unplanned_app (l1 l2 : list (Call D)) :
  follows_unplanned (l1 ++ l2) =
  if no_gait l1 then follows_unplanned l2 else follows_unplanned l1.
Proof.
  induction l1 as [|c l1 IH]; [reflexivity|].
  destruct c; simpl; auto.
Qed.

End CallLogs.

Section DynamicWalkFromStart.
Import DynamicWalk.
Context {D : Type} {SD : Scalar D} {Q : Type} {RQ : Robot D Q}.
Local Open Scope dbl_scope.

Lemma walk_invariant_init (t0 : time_point) (b : bool) (q : Q) :
  walk_invariant (init t0 b q).
Proof.
  unfold walk_invariant. simpl. repeat split; auto.
Qed.

Lemma walk_invariant_step (clk : Clock) (s : Loop D Q) :
  walk_invariant s -> walk_invariant (control_switch clk s).
Proof.
  intros (Hfr & Hfu & Hle & [(H0 & Hng & Hsb) | (H2 & Hsb & Hfte)]).
  - destruct H0 as [H0|H0].
    + destruct (standup1_pass clk s H0) as (C1 & _ & _ & C4).
      unfold walk_invariant. rewrite C4, C1.
      rewrite !count_app, follows_unplanned_app, no_gait_app, Hng.
      rewrite Hfr, Hsb. unfold count in *. simpl.
      split; [reflexivity|]. split; [reflexivity|]. split; [lia|].
      left. split; [|auto].
      destruct (_ >=? _); auto.
    + destruct (standup2_pass clk s H0) as (C1 & _ & C3 & C4).
      cbv zeta in C1, C3, C4.
      unfold walk_invariant. rewrite C4, C1, C3.
      rewrite !count_app, follows_unplanned_app, no_gait_app, Hng.
      rewrite Hfr, Hsb. unfold count in *.
      destruct (time_in_state clk s >=? startup_seconds); simpl.
      * split; [reflexivity|]. split; [reflexivity|]. split; [lia|].
        right. split; [reflexivity|]. split; [reflexivity|]. discriminate.
      * split; [reflexivity|]. split; [reflexivity|]. split; [lia|].
        left. auto.
  - destruct (time_in_state clk s >=? getTotalTime (quadruped s)) eqn:Ht.
    + rewrite (walk_pass_boundary clk s H2 Ht).
      unfold walk_invariant. cbn [calls cur_ctrl_state first_time_enter].
      rewrite !count_app, follows_unplanned_app.
      rewrite Hfr, Hsb, Hfu. unfold count in *. simpl.
      split; [reflexivity|]. split; [now destruct (no_gait (calls s))|].
      split; [lia|]. right. split; [exact H2|]. split; [reflexivity|].
      discriminate.
    + rewrite (walk_pass_inside clk s H2 Ht).
      unfold walk_invariant. cbn [calls cur_ctrl_state first_time_enter].
      destruct (first_time_enter s) eqn:Hf.
      * rewrite !count_app, !follows_unplanned_app, !no_gait_app.
        rewrite Hfr, Hsb, Hfu. unfold count in *. simpl.
        split; [reflexivity|].
        split; [now destruct (no_gait (calls s))|].
        split; [lia|]. right. split; [exact H2|]. split; [reflexivity|].
        intros _. now rewrite !andb_false_r.
      * rewrite !count_app, !follows_unplanned_app, !no_gait_app.
        rewrite Hfr, Hsb, Hfu, (Hfte eq_refl). unfold count in *. simpl.
        split; [reflexivity|]. split; [reflexivity|].
        split; [lia|]. right. split; [exact H2|]. split; [reflexivity|].
        reflexivity.
Qed.

Lemma walk_invariant_run (ticks : list Clock) (s : Loop D Q) :
  walk_invariant s -> walk_invariant (run ticks s).
Proof.
  revert s. induction ticks as [|clk ticks IH]; intros s H; [exact H|].
  apply (IH (control_switch clk s)). now apply walk_invariant_step.
Qed.

(** A pass never lowers the state. *)
Lemma switch_state_monotone (clk : Clock) (s : Loop D Q) :
  (cur_ctrl_state s <= cur_ctrl_state (control_switch clk s))%Z.
Proof.
  unfold control_switch.
  unfold QUAD_CTRL_STAND_UP1, QUAD_CTRL_STAND_UP2, QUAD_DYNAMIC_WALK.
  destruct (Z.eqb_spec (cur_ctrl_state s) 0) as [E0|_].
  { destruct (spreadAllLegs (quadruped s)).
    destruct (_ >=? _); simpl; lia. }
  destruct (Z.eqb_spec (cur_ctrl_state s) 1) as [E1|_].
  { destruct (pushAllLegs _ _ (quadruped s)).
    destruct (_ >=? _); simpl; lia. }
  destruct (Z.eqb_spec (cur_ctrl_state s) 2) as [E2|_].
  { destruct (_ >=? _); simpl; lia. }
  simpl. lia.
Qed.

Lemma run_state_monotone (ticks : list Clock) (s : Loop D Q) :
  (cur_ctrl_state s <= cur_ctrl_state (run ticks s))%Z.
Proof.
  revert s. induction ticks as [|clk ticks IH]; intro s; simpl; [lia|].
  pose proof (switch_state_monotone clk s).
  pose proof (IH (control_switch clk s)). lia.
Qed.

End DynamicWalkFromStart.

(** X10. The loop of dynamicWalk.cpp, from the start of [main] and for any
    readings of the clock and any robot: the state is always one of the
    three handled ones and never goes back; [freeze] is never called;
    [startBodyRUpdate] has been called exactly once when the state is
    [QUAD_DYNAMIC_WALK] and not at all before. *)
Theorem dynamic_walk_never_freezes
  (D : Type) (SD : Scalar D) (Q : Type) (RQ : DynamicWalk.Robot D Q)
  (t0 : time_point) (fin0 : bool) (q : Q) (ticks more : list Clock) :
  let s := DynamicWalk.run ticks (DynamicWalk.init t0 fin0 q) in
  let s' := DynamicWalk.run (ticks ++ more) (DynamicWalk.init t0 fin0 q) in
  (DynamicWalk.cur_ctrl_state s = DynamicWalk.QUAD_CTRL_STAND_UP1 \/
   DynamicWalk.cur_ctrl_state s = DynamicWalk.QUAD_CTRL_STAND_UP2 \/
   DynamicWalk.cur_ctrl_state s = DynamicWalk.QUAD_DYNAMIC_WALK) /\
  (DynamicWalk.cur_ctrl_state s <= DynamicWalk.cur_ctrl_state s')%Z /\
  count is_freeze (DynamicWalk.calls s) = 0%nat /\
  count is_startBodyRUpdate (DynamicWalk.calls s)
  = (if Z.eqb (DynamicWalk.cur_ctrl_state s) DynamicWalk.QUAD_DYNAMIC_WALK
     then 1 else 0)%nat.
Proof.
  intros s s'.
  assert (Hinv : walk_invariant s)
    by (apply walk_invariant_run, walk_invariant_init).
  destruct Hinv as (Hfr & _ & _ & [([H0|H0] & _ & Hsb) | (H2 & Hsb & _)]).
  all: split; [tauto|].
  all: split; [unfold s'; rewrite run_app; apply run_state_monotone|].
  all: split; [exact Hfr|].
  - now rewrite H0, Hsb.
  - now rewrite H0, Hsb.
  - now rewrite H2, Hsb.
Qed.

(** X11. In the same loop the gait is never followed before it has been
    planned: the first gait call in the log, if any, is [planDynamicGait].
    No gait call is made before the state is [QUAD_DYNAMIC_WALK], and every
    planning is matched by a [followDynamicGait] of its own pass, so the
    planner has never run more often than the follower. *)
Theorem dynamic_walk_plans_before_following
  (D : Type) (SD : Scalar D) (Q : Type) (RQ : DynamicWalk.Robot D Q)
  (t0 : time_point) (fin0 : bool) (q : Q) (ticks : list Clock) :
  let s := DynamicWalk.run ticks (DynamicWalk.init t0 fin0 q) in
  follows_unplanned (DynamicWalk.calls s) = false /\
  (count is_planDynamicGait (DynamicWalk.calls s)
   <= count is_followDynamicGait (DynamicWalk.calls s))%nat /\
  (DynamicWalk.cur_ctrl_state s <> DynamicWalk.QUAD_DYNAMIC_WALK ->
   no_gait (DynamicWalk.calls s) = true).
Proof.
  intro s.
  assert (Hinv : walk_invariant s)
    by (apply walk_invariant_run, walk_invariant_init).
  destruct Hinv as (_ & Hfu & Hle & [(_ & Hng & _) | (H2 & _ & _)]).
  - auto.
  - split; [exact Hfu|]. split; [exact Hle|]. intro H. contradiction.
Qed.

Section Answers.
Import DynamicWalk.
Context {D : Type} {SD : Scalar D} {Q : Type} {RQ : Robot D Q}.
Variable spread : Q -> bool.
Variable push : D -> D -> Q -> bool.
Local Open Scope dbl_scope.

Lemma switch_ignores_answers (clk : Clock) (s1 s2 : Loop D Q) :
  cur_ctrl_state s1 = cur_ctrl_state s2 ->
  state_enter_time s1 = state_enter_time s2 ->
  first_time_enter s1 = first_time_enter s2 ->
  quadruped s1 = quadruped s2 ->
  calls s1 = calls s2 ->
  let s1' := control_switch (RQ := RQ) clk s1 in
  let s2' := control_switch (RQ := answering RQ spread push) clk s2 in
  cur_ctrl_state s1' = cur_ctrl_state s2' /\
  state_enter_time s1' = state_enter_time s2' /\
  first_time_enter s1' = first_time_enter s2' /\
  quadruped s1' = quadruped s2' /\
  calls s1' = calls s2'.
Proof.
  destruct s1 as [c1 e1 u1 r1 f1 n1 q1 l1], s2 as [c2 e2 u2 r2 f2 n2 q2 l2].
  simpl. intros <- <- <- <- <-. unfold control_switch. simpl.
  destruct (Z.eqb c1 QUAD_CTRL_STAND_UP1).
  { destruct (spreadAllLegs q1) as [q' fin]. simpl.
    destruct (_ >=? _); simpl; auto. }
  destruct (Z.eqb c1 QUAD_CTRL_STAND_UP2).
  { destruct (pushAllLegs _ _ q1) as [q' fin]. simpl.
    destruct (_ >=? _); simpl; auto. }
  destruct (Z.eqb c1 QUAD_DYNAMIC_WALK).
  { destruct (_ >=? _); simpl; auto. }
  simpl. auto.
Qed.

Lemma run_ignores_answers (ticks : list Clock) (s1 s2 : Loop D Q) :
  cur_ctrl_state s1 = cur_ctrl_state s2 ->
  state_enter_time s1 = state_enter_time s2 ->
  first_time_enter s1 = first_time_enter s2 ->
  quadruped s1 = quadruped s2 ->
  calls s1 = calls s2 ->
  let s1' := run (RQ := RQ) ticks s1 in
  let s2' := run (RQ := answering RQ spread push) ticks s2 in
  cur_ctrl_state s1' = cur_ctrl_state s2' /\
  state_enter_time s1' = state_enter_time s2' /\
  first_time_enter s1' = first_time_enter s2' /\
  quadruped s1' = quadruped s2' /\
  calls s1' = calls s2'.
Proof.
  revert s1 s2.
  induction ticks as [|clk ticks IH]; intros s1 s2 H1 H2 H3 H4 H5; simpl;
    [auto|].
  destruct (switch_ignores_answers clk s1 s2 H1 H2 H3 H4 H5)
    as (I1 & I2 & I3 & I4 & I5).
  now apply IH.
Qed.

End Answers.

(** X12. The loop of dynamicWalk.cpp stores what [spreadAllLegs] and
    [pushAllLegs] return in [isFinished] and never reads it: with any other
    answers from the two methods, and any other initial [isFinished], the
    loop goes through the same states at the same passes, makes the same
    calls and leaves the robot the same. The stand-up advances on time
    alone. *)
Theorem dynamic_walk_ignores_isFinished
  (D : Type) (SD : Scalar D) (Q : Type) (RQ : DynamicWalk.Robot D Q)
  (spread : Q -> bool) (push : D -> D -> Q -> bool)
  (t0 : time_point) (fin1 fin2 : bool) (q : Q) (ticks : list Clock) :
  let s1 := DynamicWalk.run (RQ := RQ) ticks (DynamicWalk.init t0 fin1 q) in
  let s2 := DynamicWalk.run (RQ := answering RQ spread push) ticks
              (DynamicWalk.init t0 fin2 q) in
  DynamicWalk.cur_ctrl_state s1 = DynamicWalk.cur_ctrl_state s2 /\
  DynamicWalk.state_enter_time s1 = DynamicWalk.state_enter_time s2 /\
  DynamicWalk.first_time_enter s1 = DynamicWalk.first_time_enter s2 /\
  DynamicWalk.quadruped s1 = DynamicWalk.quadruped s2 /\
  DynamicWalk.calls s1 = DynamicWalk.calls s2.
Proof.
  intros s1 s2. apply run_ignores_answers; reflexivity.
Qed.

(** ** The loop of quadruped_control.cpp from its start *)

Section QuadrupedControlFromStart.
Import QuadrupedControl.
Context {D : Type} {SD : Scalar D} {TD : Trig D}.
Variable getState : Trajectory D -> D -> Vector3d D * Vector3d D * Vector3d D.





End QuadrupedControlFromStart.


(** ** Pacing *)

Lemma to_int_small (x : Z) :
  (-2147483648 <= x < 2147483648)%Z -> to_int x = x.
Proof. intro H. unfold to_int. rewrite Z.mod_small; lia. Qed.

Lemma rem_bound_neg (a b : Z) :
  (a <= 0)%Z -> (0 < b)%Z -> (- b < Z.rem a b <= 0)%Z.
Proof.
  intros Ha Hb. replace a with (- (- a))%Z by lia.
  rewrite Z.rem_opp_l by lia.
  pose proof (Z.rem_bound_pos (- a) b ltac:(lia) Hb). lia.
Qed.

(** X14. The pacing of both loops: when the clock has not gone back since
    the previous pass, and less than 2^31 ms have gone by, the loop sleeps
    a whole number of milliseconds between 0 and [interval_ms] = 5, never
    past the end of the 5 ms period and less than 1 ms short of it; when
    the period is over already it does not sleep. *)
Theorem pacing_never_oversleeps (prev_time now_time : time_point) :
  (prev_time <= now_time)%Z ->
  (now_time - prev_time <= 2147483647 * 1000000)%Z ->
  let w := need_to_wait prev_time now_time in
  let remaining := (prev_time + interval_ms * 1000000 - now_time)%Z in
  (0 <= w <= interval_ms)%Z /\
  (w * 1000000 <= Z.max 0 remaining < (w + 1) * 1000000)%Z /\
  (remaining <= 0 -> w = 0)%Z.
Proof.
  intros Hmono Hgap w remaining. unfold w, need_to_wait. fold remaining.
  unfold interval_ms in *.
  pose proof (Z.quot_rem' remaining 1000000) as Hqr.
  assert (Hq : (-2147483648 <= Z.quot remaining 1000000 < 2147483648)%Z).
  { destruct (Z_lt_le_dec remaining 0) as [Hneg|Hpos].
    - pose proof (rem_bound_neg remaining 1000000 ltac:(lia) ltac:(lia)).
      unfold remaining in *. lia.
    - pose proof (Z.rem_bound_pos remaining 1000000 ltac:(lia) ltac:(lia)).
      unfold remaining in *. lia. }
  rewrite (to_int_small _ Hq).
  destruct (Z_lt_le_dec remaining 0) as [Hneg|Hpos].
  - pose proof (rem_bound_neg remaining 1000000 ltac:(lia) ltac:(lia)).
    unfold remaining in *. lia.
  - pose proof (Z.rem_bound_pos remaining 1000000 ltac:(lia) ltac:(lia)).
    unfold remaining in *. lia.
Qed.

Lemma pacing_witness :
  need_to_wait 1000000000%Z 1001200000%Z = 3%Z /\
  need_to_wait 1000000000%Z 1007000000%Z = 0%Z.
Proof.
  split.
  - pose proof (pacing_never_oversleeps 1000000000%Z 1001200000%Z
                  ltac:(lia) ltac:(lia)) as H.
    cbv zeta in H. unfold interval_ms in H. lia.
  - apply (pacing_never_oversleeps 1000000000%Z 1007000000%Z); [lia | lia |].
    unfold interval_ms. lia.
Defined.

(** ** The feedback handler *)

Section FeedbackFacts.
Context {D : Type} {SD : Scalar D}.

(** The fused gravity reads the robot through the base frames only. *)
Lemma my_grav_same_frames (q1 q2 : Quadruped D) (fbk : GroupFeedback D)
  (i : nat) :
  getBaseFrame (legs_ q1 i) = getBaseFrame (legs_ q2 i) ->
  my_grav q1 fbk i = my_grav q2 fbk i.
Proof. intro H. unfold my_grav. now rewrite H. Qed.

Lemma fold_gravity_same_frames (q1 q2 : Quadruped D) (fbk : GroupFeedback D)
  (legs : list nat) (acc : Vector3d D) :
  (forall i, getBaseFrame (legs_ q1 i) = getBaseFrame (legs_ q2 i)) ->
  fold_left (add_leg_gravity q1 fbk) legs acc
  = fold_left (add_leg_gravity q2 fbk) legs acc.
Proof.
  intro H. revert acc. induction legs as [|i legs IH]; intro acc;
    [reflexivity|].
  cbn [fold_left]. rewrite IH. f_equal.
  unfold add_leg_gravity. now rewrite (my_grav_same_frames q1 q2 fbk i (H i)).
Qed.

Lemma feedbackHandler_frames (fbk : GroupFeedback D) (q : Quadruped D)
  (i : nat) :
  getBaseFrame (legs_ (feedbackHandler fbk q) i) = getBaseFrame (legs_ q i).
Proof.
  unfold feedbackHandler. cbn [legs_ with_legs with_gravity].
  now destruct (Nat.ltb i num_legs_).
Qed.

End FeedbackFacts.

(** X15. The feedback handler keeps nothing of the feedback before: after
    a feedback [fbk] the gravity direction and the joint angles of every
    leg are what they would be had the earlier feedback not come. The joint
    angles of each of the six legs are the positions of its three modules
    in [fbk], NaN where a position is absent; the base frames, the commands,
    the frames sent and the trajectories are not touched. *)
Theorem feedback_overwrites_earlier_feedback
  (D : Type) (SD : Scalar D) (earlier fbk : GroupFeedback D)
  (q : Quadruped D) :
  let once := feedbackHandler fbk q in
  let twice := feedbackHandler fbk (feedbackHandler earlier q) in
  gravity_direction_ twice = gravity_direction_ once /\
  (forall i, getLegJointAngles twice i = getLegJointAngles once i) /\
  (forall i, (i < 6)%nat -> getLegJointAngles once i = pos_vec fbk i) /\
  (forall i j, (i < 6)%nat -> (j < 3)%nat ->
     actuator_position (fbk (3 * i + j)%nat) = None ->
     coeff (getLegJointAngles once i) j = quiet_NaN) /\
  (forall i, getBaseFrame (legs_ once i) = getBaseFrame (legs_ q i)) /\
  cmd_ once = cmd_ q /\ sent once = sent q /\
  startup_trajectories once = startup_trajectories q /\
  swing_trajectories once = swing_trajectories q /\
  stance_trajectories once = stance_trajectories q.
Proof.
  intros once twice.
  split; [|split; [|split; [|split; [|split; [|repeat split]]]]].
  - change (avg_grav (feedbackHandler earlier q) fbk = avg_grav q fbk).
    unfold avg_grav. apply (f_equal normalize).
    apply fold_gravity_same_frames.
    intro i. apply (feedbackHandler_frames earlier q i).
  - intro i. unfold twice, once, getLegJointAngles, feedbackHandler.
    cbn [legs_ with_legs with_gravity].
    now destruct (Nat.ltb i num_legs_).
  - intros i Hi. unfold once, getLegJointAngles, feedbackHandler.
    cbn [legs_ with_legs with_gravity].
    destruct (Nat.ltb_spec i num_legs_) as [_|H]; [reflexivity|].
    unfold num_legs_ in H. lia.
  - intros i j Hi Hj Hnone. unfold once, getLegJointAngles, feedbackHandler.
    cbn [legs_ with_legs with_gravity].
    destruct (Nat.ltb_spec i num_legs_) as [_|H];
      [|unfold num_legs_ in H; lia].
    cbn [setJointAngles getJointAngle]. unfold pos_vec, fbk_pos.
    unfold num_joints_per_leg_.
    replace (3 * i)%nat with (i * 3)%nat in Hnone by lia.
    destruct j as [|[|[|j]]]; [| | |lia]; cbn [coeff vx vy vz];
      now rewrite Hnone.
  - intro i. apply feedbackHandler_frames.
Qed.

Section IdealGravity.
Local Open Scope R_scope.

(** In real arithmetic the sum of the estimates stays free of NaN: a leg
    whose estimate has a NaN is skipped. *)
Lemma add_leg_gravity_real (q : Quadruped xreal) (fbk : GroupFeedback xreal)
  (i : nat) (x y z : R) :
  exists x' y' z',
    add_leg_gravity q fbk (V3 (XR x) (XR y) (XR z)) i
    = V3 (XR x') (XR y') (XR z').
Proof.
  unfold add_leg_gravity.
  destruct (my_grav q fbk i) as [[|a] [|b] [|c]]; simpl; eauto.
  do 3 eexists. reflexivity.
Qed.

Lemma fold_gravity_real (q : Quadruped xreal) (fbk : GroupFeedback xreal)
  (legs : list nat) (x y z : R) :
  exists x' y' z',
    fold_left (add_leg_gravity q fbk) legs (V3 (XR x) (XR y) (XR z))
    = V3 (XR x') (XR y') (XR z').
Proof.
  revert x y z. induction legs as [|i legs IH]; intros x y z; simpl.
  - eauto.
  - destruct (add_leg_gravity_real q fbk i x y z) as (x1 & y1 & z1 & E).
    rewrite E. apply IH.
Qed.

Lemma squares_zero (x y z : R) :
  ~ 0 < x * x + y * y + z * z -> x = 0 /\ y = 0 /\ z = 0.
Proof. intro H. repeat split; nra. Qed.

End IdealGravity.

(** X16. In real arithmetic, whatever the feedback, NaN included, the
    gravity direction the handler leaves is free of NaN, and it is the zero
    vector or a unit vector. (The normalisation divides by the norm when the
    squared norm is positive, and leaves the vector otherwise.) *)
Theorem fused_gravity_is_zero_or_unit
  (q : Quadruped xreal) (fbk : GroupFeedback xreal) :
  exists x y z : R,
    gravity_direction_ (feedbackHandler fbk q) = V3 (XR x) (XR y) (XR z) /\
    ((x = 0 /\ y = 0 /\ z = 0) \/ x * x + y * y + z * z = 1)%R.
Proof.
  change (gravity_direction_ (feedbackHandler fbk q)) with (avg_grav q fbk).
  unfold avg_grav.
  destruct (fold_gravity_real q fbk (seq 0 num_legs_) 0 0 0)
    as (x & y & z & E).
  change (V3 (XR 0) (XR 0) (XR 0)) with (@vzero xreal _) in E.
  rewrite E.
  destruct (Rlt_dec 0 (x * x + y * y + z * z)) as [Hpos|Hzero].
  - rewrite normalize_XR by exact Hpos.
    rewrite vdivs_XR by (now apply sqrt_nonzero).
    do 3 eexists. split; [reflexivity|]. right.
    set (s := R_sqrt.sqrt (x * x + y * y + z * z)).
    assert (Hs : s <> 0%R) by now apply sqrt_nonzero.
    assert (Hss : (s * s = x * x + y * y + z * z)%R)
      by (apply sqrt_sqrt; lra).
    field_simplify_eq; [|exact Hs]. lra.
  - exists x, y, z. split; [|left; now apply squares_zero].
    unfold normalize. rewrite squaredNorm_XR.
    cbn [ltb of_Z xreal_scalar xltb].
    now destruct (Rlt_dec (IZR 0) (x * x + y * y + z * z)).
Qed.

(** ** The shares of the foot forces *)

Lemma bench_tilted_leverages (i : nat) :
  (i < 6)%nat ->
  leverage (vopp (gravity_direction_ (bench_tilted (D := xreal))))
           (legs_ bench_tilted i)
  = XR (real_of (leverage (vopp (gravity_direction_ bench_tilted))
                          (legs_ (bench_tilted (D := xreal)) i))) /\
  real_of (leverage (vopp (gravity_direction_ bench_tilted))
                    (legs_ (bench_tilted (D := xreal)) i)) <> 0%R.
Proof.
  intro Hi.
  do 6 (destruct i as [|i]; [
    unfold leverage, home_stance_xyz, in_base_frame, bench_tilted;
    cbn [bench legs_ bench_leg getBaseFrame bench_frame frame_z
         gravity_direction_ with_gravity];
    autorewrite with xreal_lit; simpl; autorewrite with xreal_lit; simpl;
    match goal with
    | |- context [Rlt_dec ?e 0] =>
        destruct (Rlt_dec e 0) as [Hneg|_]; [exfalso; nra|];
        split; [reflexivity | apply sqrt_nonzero; nra]
    end |]).
  lia.
Qed.

(** X17. In real arithmetic, for six stance points whose leverage factors
    are numbers other than 0: the share of the weight [computeFootForces]
    gives a leg is positive, below 1, and inversely proportional to the
    leg's leverage, the distance of its stance point from the line of
    gravity through the origin: share times leverage is the same for all
    six legs. *)
Theorem foot_force_shares_inverse_to_leverage
  (q : Quadruped xreal) (f : nat -> R) :
  (forall i, (i < 6)%nat ->
     leverage (vopp (gravity_direction_ q)) (legs_ q i) = XR (f i) /\
     f i <> 0%R) ->
  exists share : nat -> R,
    foot_factors q = map (fun i => XR (share i)) (seq 0 6) /\
    forall i j, (i < 6)%nat -> (j < 6)%nat ->
      (0 < share i < 1)%R /\ (share i * f i = share j * f j)%R.
Proof.
  intro H. destruct (foot_factors_ideal q f H) as [HT Hfac].
  set (s0 := (f 0%nat + f 1%nat + f 2%nat + f 3%nat + f 4%nat + f 5%nat)%R)
    in *.
  set (s1 := (s0 / f 0%nat + s0 / f 1%nat + s0 / f 2%nat + s0 / f 3%nat
              + s0 / f 4%nat + s0 / f 5%nat)%R) in *.
  exists (fun i => (s0 / f i / s1)%R). split; [exact Hfac|].
  assert (P : forall i, (i < 6)%nat -> (0 < f i)%R).
  { intros i Hi. destruct (H i Hi) as [E N].
    pose proof (norm_XR_nonneg _ _ E). lra. }
  pose proof (P 0%nat ltac:(lia)) as P0. pose proof (P 1%nat ltac:(lia)) as P1.
  pose proof (P 2%nat ltac:(lia)) as P2. pose proof (P 3%nat ltac:(lia)) as P3.
  pose proof (P 4%nat ltac:(lia)) as P4. pose proof (P 5%nat ltac:(lia)) as P5.
  assert (HS : (0 < s0)%R) by (unfold s0; lra).
  assert (Q : forall x, (0 < x)%R -> (0 < s0 / x)%R).
  { intros x Hx. apply Rdiv_lt_0_compat; lra. }
  pose proof (Q _ P0) as Q0. pose proof (Q _ P1) as Q1.
  pose proof (Q _ P2) as Q2. pose proof (Q _ P3) as Q3.
  pose proof (Q _ P4) as Q4. pose proof (Q _ P5) as Q5.
  assert (B : forall i, (i < 6)%nat -> (0 < s0 / f i < s1)%R).
  { intros i Hi. unfold s1.
    do 6 (destruct i as [|i]; [lra|]). lia. }
  intros i j Hi Hj. split.
  - destruct (B i Hi) as [B1 B2]. split.
    + apply Rdiv_lt_0_compat; lra.
    + apply (Rmult_lt_reg_r s1); [exact HT|].
      unfold Rdiv at 1. rewrite Rmult_assoc, Rinv_l by lra. lra.
  - pose proof (P i Hi). pose proof (P j Hj). field. lra.
Qed.

Lemma foot_force_shares_witness :
  exists share : nat -> R,
    foot_factors (bench_tilted (D := xreal))
    = map (fun i => XR (share i)) (seq 0 6) /\
    (0 < share 0%nat < 1)%R.
Proof.
  destruct (foot_force_shares_inverse_to_leverage bench_tilted
              (fun i => real_of (leverage (vopp (gravity_direction_ bench_tilted))
                                          (legs_ bench_tilted i)))
              bench_tilted_leverages) as (share & Hfac & Hall).
  exists share. split; [exact Hfac|].
  apply (Hall 0%nat 0%nat); lia.
Defined.

(** X18. In real arithmetic: in a gait step [runTest] compensates no foot
    force at all on the two legs of the stance pair, and a fifth of the
    weight, against gravity, on each leg of the swing pair, in either mode
    and at any time: two fifths of the weight over the four legs. *)
Theorem runTest_forces_carry_two_fifths
  (q : Quadruped xreal) (mode : SwingMode) (a b c w : R) :
  gravity_direction_ q = V3 (XR a) (XR b) (XR c) ->
  weight_ q = XR w ->
  stance_foot_force q = V3 (XR 0) (XR 0) (XR 0) /\
  swing_foot_force q
  = V3 (XR (w / 5 * - a)) (XR (w / 5 * - b)) (XR (w / 5 * - c)) /\
  fold_left vadd
    (map (fun _ : nat => swing_foot_force q) (swing_vleg mode)
     ++ map (fun _ : nat => stance_foot_force q) (stance_vleg mode)) vzero
  = V3 (XR (2 * w / 5 * - a)) (XR (2 * w / 5 * - b)) (XR (2 * w / 5 * - c)).
Proof.
  intros Hg Hw. unfold stance_foot_force, swing_foot_force. rewrite Hg, Hw.
  autorewrite with xreal_lit.
  split; [|split; [|destruct mode]].
  all: cbv [swing_vleg stance_vleg map app fold_left vadd vmuls smul vopp
            vzero vx vy vz add mul opp of_Z xreal_scalar xlift2 xopp].
  all: f_equal; f_equal; field.
Qed.

Lemma runTest_forces_witness :
  swing_foot_force (bench (D := xreal) vzero)
  = V3 (XR (21 / 5 * - 0)) (XR (21 / 5 * - 0)) (XR (21 / 5 * - (-1))).
Proof.
  apply (runTest_forces_carry_two_fifths (bench vzero) swing_mode_virtualLeg1
           0 0 (-1) 21); reflexivity.
Defined.

(** ** The time the stand-up takes *)

Section IdealTiming.
Import DynamicWalk.
Context {Q : Type} {RQ : Robot xreal Q}.
Local Open Scope dbl_scope.

Lemma seconds_reached (a b : time_point) :
  (seconds a b >=? (startup_seconds : xreal)) = true ->
  (1900000000 <= a - b)%Z.
Proof.
  unfold seconds, startup_seconds. rewrite lit_xreal_1.
  cbn [div of_Z leb xreal_scalar]. rewrite xdiv_XR by lra.
  cbn [xleb]. destruct (Rle_dec _ _) as [H|]; [intros _|discriminate].
  apply le_IZR.
  apply (Rmult_le_compat_r 1000000000) in H; [|lra].
  unfold Rdiv in H at 2. rewrite Rmult_assoc, Rinv_l, Rmult_1_r in H by lra.
  lra.
Qed.

Lemma stand_up_time_step (t0 latest : time_point) (clk : Clock)
  (s : Loop xreal Q) :
  (latest <= now_curr clk)%Z -> (now_curr clk <= now_enter clk)%Z ->
  (state_enter_time s <= latest)%Z ->
  (t0 + stand_up_ns (cur_ctrl_state s) <= state_enter_time s)%Z ->
  let s' := control_switch clk s in
  (state_enter_time s' <= now_enter clk)%Z /\
  (t0 + stand_up_ns (cur_ctrl_state s') <= state_enter_time s')%Z.
Proof.
  intros H1 H2 H3 H4. unfold control_switch.
  unfold stand_up_ns, QUAD_CTRL_STAND_UP1, QUAD_CTRL_STAND_UP2,
    QUAD_DYNAMIC_WALK in *.
  destruct (Z.eqb_spec (cur_ctrl_state s) 0) as [E0|N0].
  { rewrite ?E0 in H4. simpl in H4.
    destruct (spreadAllLegs (quadruped s)) as [q1 fin].
    destruct (_ >=? _) eqn:Et; cbn [cur_ctrl_state state_enter_time].
    - apply seconds_reached in Et. simpl. lia.
    - rewrite E0. simpl. lia. }
  destruct (Z.eqb_spec (cur_ctrl_state s) 1) as [E1|N1].
  { rewrite ?E1 in H4. simpl in H4.
    destruct (pushAllLegs _ _ (quadruped s)) as [q1 fin].
    destruct (_ >=? _) eqn:Et; cbn [cur_ctrl_state state_enter_time].
    - apply seconds_reached in Et. simpl. lia.
    - rewrite E1. simpl. lia. }
  destruct (Z.eqb_spec (cur_ctrl_state s) 2) as [E2|N2].
  { rewrite ?E2 in H4. simpl in H4.
    destruct (_ >=? _); cbn [cur_ctrl_state state_enter_time];
      rewrite E2; simpl; lia. }
  cbn [cur_ctrl_state state_enter_time].
  destruct (Z.eqb_spec (cur_ctrl_state s) 1); [contradiction|].
  destruct (Z.eqb_spec (cur_ctrl_state s) 2); [contradiction|].
  lia.
Qed.

Lemma stand_up_time_run (t0 latest : time_point) (ticks : list Clock)
  (s : Loop xreal Q) :
  monotone_from latest ticks ->
  (state_enter_time s <= latest)%Z ->
  (t0 + stand_up_ns (cur_ctrl_state s) <= state_enter_time s)%Z ->
  (t0 + stand_up_ns (cur_ctrl_state (run ticks s))
   <= state_enter_time (run ticks s))%Z.
Proof.
  revert latest s. induction ticks as [|clk ticks IH]; intros latest s Hm H1 H2;
    [exact H2|].
  destruct Hm as (M1 & M2 & M3).
  destruct (stand_up_time_step t0 latest clk s M1 M2 H1 H2) as [S1 S2].
  exact (IH (now_enter clk) (control_switch clk s) M3 S1 S2).
Qed.

End IdealTiming.

(** X19. In real arithmetic, with a clock that does not go back: the loop
    of dynamicWalk.cpp is in [QUAD_CTRL_STAND_UP2] no sooner than 1.9 s
    after the start of [main], and in [QUAD_DYNAMIC_WALK] no sooner than
    3.8 s after it; the state's [state_enter_time] is that late at least,
    whatever the robot answers and however often the loop runs. *)
Theorem walk_not_before_stand_up_time
  (Q : Type) (RQ : DynamicWalk.Robot xreal Q)
  (t0 : time_point) (fin0 : bool) (q : Q) (ticks : list Clock) :
  monotone_from t0 ticks ->
  let s := DynamicWalk.run ticks (DynamicWalk.init t0 fin0 q) in
  (t0 + stand_up_ns (DynamicWalk.cur_ctrl_state s)
   <= DynamicWalk.state_enter_time s)%Z.
Proof.
  intros Hm s. unfold s.
  apply (stand_up_time_run t0 t0 ticks _ Hm);
    unfold DynamicWalk.init, stand_up_ns; simpl; lia.
Qed.

Lemma walk_not_before_witness :
  let s := DynamicWalk.run [tick_at 1900000000; tick_at 3900000000]
             (DynamicWalk.init 0%Z false (counting0 (D := xreal))) in
  (0 + stand_up_ns (DynamicWalk.cur_ctrl_state s)
   <= DynamicWalk.state_enter_time s)%Z.
Proof.
  apply (walk_not_before_stand_up_time (Counting xreal) _ 0%Z false counting0
           [tick_at 1900000000; tick_at 3900000000]).
  simpl. lia.
Defined.

(** X20. A gait step at its start. With a sampler that gives a
    trajectory's first waypoint at time 0, [runTest] at time 0 after
    [prepareTrajectories] for the same mode commands each leg of the swing
    pair to the IK solution of its home stance point, wherever the leg is,
    and each leg of the stance pair to the joint angles it has: the swing
    trajectories are planned from the home stance, the stance trajectories
    from the feedback. *)
Theorem gait_step_starts_from_home_and_feedback
  (D : Type) (SD : Scalar D)
  (getState : Trajectory D -> D -> Vector3d D * Vector3d D * Vector3d D)
  (mode : SwingMode) (leg_swing_time total_time : D) (q : Quadruped D) :
  (forall traj p rest,
     positions traj = p :: rest ->
     fst (fst (getState traj (of_Z 0))) = p) ->
  exists q',
    runTest getState mode (of_Z 0) total_time
      (prepareTrajectories mode leg_swing_time q) = Some q' /\
    (forall leg, In leg (swing_vleg mode) ->
       leg_positions (cmd_ q') leg
       = commanded (computeIK (legs_ q leg) (home_stance_xyz (legs_ q leg)))) /\
    (forall leg, In leg (stance_vleg mode) ->
       leg_positions (cmd_ q') leg = commanded (getLegJointAngles q leg)).
Proof.
  intro Hstart.
  unfold runTest, prepareTrajectories.
  cbn [swing_trajectories stance_trajectories with_swing with_stance].
  destruct mode.
  all: cbn [fold_left enumerate swing_vleg stance_vleg combine seq length map].
  all: repeat (rewrite ?follow_leg_some, ?follow_leg_none; cbn [nth_error]).
  all: eexists; split; [reflexivity|].
  all: split; intros leg [<-|[<-|[]]].
  all: unfold leg_positions, commanded; cbn [cmd_ sendCommand with_cmd].
  all: unfold hold_leg, num_joints_per_leg_, getLegJointAngles.
  all: cbn [legs_ with_swing with_stance].
  all: repeat (erewrite Hstart by reflexivity).
  all: reflexivity.
Qed.

Lemma gait_step_starts_witness :
  exists q',
    runTest hold_first swing_mode_virtualLeg1 (of_Z 0) (lit 4 1)
      (prepareTrajectories swing_mode_virtualLeg1 (lit 4 1)
         (bench (D := binary64) vzero)) = Some q' /\
    leg_positions (cmd_ q') 1
    = commanded (getLegJointAngles (bench (D := binary64) vzero) 1).
Proof.
  destruct (gait_step_starts_from_home_and_feedback binary64 _ hold_first
              swing_mode_virtualLeg1 (lit 4 1) (lit 4 1) (bench vzero))
    as (q' & E & _ & Hstance).
  - intros traj p rest Hp. unfold hold_first. now rewrite Hp.
  - exists q'. split; [exact E|]. apply Hstance. simpl. auto.
Defined.
